(** * httpclient: a shallow embedding of the request/retry helper

    The development follows the Go package [httpclient]:

    - [float64], [math]: IEEE 754 binary64 arithmetic as used by
      [expBackoffCalc];
    - [http]: the fragment of [net/http] the package touches;
    - [Current]: [Request] as written in [httpclient.go];
    - [Legacy]: [Request] as written in the second copy of the file, the one
      that keeps a package-level [version] variable;
    - [HeaderLink] and [expBackoffCalc], which are the same in both files. *)

From Stdlib Require Import ZArith QArith Lia List Bool Ascii String.
From Stdlib Require Import Floats.SpecFloat.
From stdpp Require Import base option list strings gmap.

#[local] Open Scope Z_scope.

(** ** binary64 *)

(** Go's [float64] is IEEE 754 binary64.  The values are those of
    [spec_float]; the operations are the correctly rounded ones of the
    Standard Library at precision 53 and maximal exponent 1024. *)
Module float64.

Definition prec : Z := 53.
Definition emax : Z := 1024.

Definition t : Type := spec_float.

(** Conversion of an integer constant ([1], [2] in the source). *)
Definition of_Z (n : Z) : t := binary_normalize prec emax n 0 false.

Definition sub (x y : t) : t := SFsub prec emax x y.
Definition div (x y : t) : t := SFdiv prec emax x y.
Definition ldexp (x : t) (e : Z) : t := SFldexp prec emax x e.

Definition ltb (x y : t) : bool := SFltb x y.
Definition leb (x y : t) : bool := SFleb x y.

Definition pos_inf : t := S754_infinity false.

(** The rational a finite value stands for; infinities and NaN have none. *)
Definition to_Q (x : t) : option Q :=
  match x with
  | S754_zero _ => Some 0%Q
  | S754_finite s m e =>
      let q := (inject_Z (Zpos m) * Qpower 2 e)%Q in
      Some (if s then Qopp q else q)
  | S754_infinity _ | S754_nan => None
  end.

(** [represents x q]: [x] is finite and its value is exactly [q]. *)
Definition represents (x : t) (q : Q) : Prop :=
  match to_Q x with
  | Some v => Qeq v q
  | None => False
  end.

Definition representsb (x : t) (q : Q) : bool :=
  match to_Q x with
  | Some v => Qeq_bool v q
  | None => false
  end.

End float64.

(** [math.Pow] is Go's library function.  The package calls it only as
    [math.Pow(2, float64(attempts))], base two and an integral exponent; there
    the library multiplies powers of two exactly and finishes with
    [Ldexp(1, n)], which overflows to [+Inf] and underflows to [0]. *)
Module math.

Definition Pow2 (n : Z) : float64.t := float64.ldexp (float64.of_Z 1) n.

End math.

(** ** The backoff calculator

    [func expBackoffCalc(attempts int) float64 {
       return (math.Pow(2, float64(attempts)) - 1) / 2 }] *)
Definition expBackoffCalc (attempts : Z) : float64.t :=
  float64.div (float64.sub (math.Pow2 attempts) (float64.of_Z 1)) (float64.of_Z 2).

(** The value the formula [(2^attempts - 1) / 2] has over the rationals. *)
Definition backoff_formula (attempts : Z) : Q :=
  (inject_Z (2 ^ attempts - 1) / 2)%Q.

(** ** Errors, the result envelope and [net/http] *)

(** Go's [error] interface: [nil], or a value whose [Error()] is the message. *)
Definition error : Type := option string.

(** [io.Reader] of a request payload; [nil] for a [GET].  The payload is a
    value here, and [http.NewRequest] is given the same bytes on every turn
    of the loop; in Go it is given the same reader, which the first send has
    read by then.  What is said below about the body of a request is
    therefore said of the first send of a call, or of one turn. *)
Definition Reader : Type := option (list Byte.byte).

Module http.

(** [http.Header]: canonical key to the ordered values added under it. *)
Abbreviation Header := (gmap string (list string)).

Record Request : Type := mkRequest {
  req_Method : string;
  req_URL : string;
  req_Header : Header;
  req_Body : Reader;
}.

Record Response : Type := mkResponse {
  resp_Status : string;       (* the status line, e.g. "200 OK" *)
  resp_StatusCode : Z;
  resp_Header : Header;
  resp_Body : list Byte.byte;
}.

Definition StatusOK : Z := 200.
Definition StatusCreated : Z := 201.
Definition StatusForbidden : Z := 403.
Definition StatusNotFound : Z := 404.
Definition StatusTooManyRequests : Z := 429.

End http.

(** [ResponseStatus] contains the status and statusCode of a response. *)
Record ResponseStatus : Type := mkResponseStatus {
  Text : string;
  Code : Z;
}.

(** [HTTPResponse] wraps body, Status and Headers from the [http.Response];
    [None] is Go's [nil] slice or map. *)
Record HTTPResponse : Type := mkHTTPResponse {
  Body : option (list Byte.byte);
  Status : ResponseStatus;
  Headers : option http.Header;
}.

(** What a classifier finds in a response to decide how long to wait. *)
Inductive RetryHint : Type :=
| NoHint
| HintSeconds (seconds : Z)
| HintUnreadable (msg : string).

(** How long a classifier blocks: the hinted time, or the computed backoff. *)
Inductive Wait : Type :=
| WaitHint (seconds : Z)
| WaitBackoff (seconds : float64.t).

(** The effects of one call, in the order they happen. *)
Inductive Event : Type :=
| EvDo (req : http.Request) (out : http.Response + string)   (* client.Do *)
| EvLog (line : string)                                      (* log.Debugf *)
| EvSleep (d : Wait)                                         (* time.Sleep *)
| EvClose (resp : http.Response).                            (* resp.Body.Close *)

(** The collaborators of the package, none of them part of it: the transport
    behind [client.Do] with its own state, [http.NewRequest], the key
    canonicalisation of [http.Header.Add], and what the two classifiers read
    in a response.  The client is [http.Client{Timeout: 60 * time.Second}]; an
    attempt that runs into the timeout is one of the errors [client_Do]
    yields. *)
Class Env : Type := {
  Transport : Type;
  client_Do : Transport -> http.Request -> (http.Response + string) * Transport;
  http_NewRequest : string -> string -> Reader -> http.Request + string;
  CanonicalMIMEHeaderKey : string -> string;
  retryHint429 : http.Response -> RetryHint;
  retryHint403 : http.Response -> RetryHint;
}.

(** ** A state and trace monad *)

(** A computation reads and updates a state [S], emits events, and yields a
    value. *)
Definition M (S A : Type) : Type := S -> A * list Event * S.

Definition ret {S A} (a : A) : M S A := fun s => (a, [], s).

Definition bind {S A B} (c : M S A) (k : A -> M S B) : M S B :=
  fun s =>
    let '(a, evs, s') := c s in
    let '(b, evs', s'') := k a s' in
    (b, evs ++ evs', s'').

Definition emit {S} (ev : Event) : M S unit := fun s => (tt, [ev], s).

Declare Scope go_scope.
Delimit Scope go_scope with go.
Notation "'do' x <- c ; k" := (bind c (fun x => k))
  (at level 10, x name, c at level 100, k at level 200) : go_scope.
Notation "'do' ' pat <- c ; k" := (bind c (fun x => match x with pat => k end))
  (at level 10, pat pattern, c at level 100, k at level 200) : go_scope.
Notation "'run' c ; k" := (bind c (fun _ => k))
  (at level 10, c at level 100, k at level 200) : go_scope.

#[local] Open Scope go_scope.

(** ** Pieces shared by both files *)

(** The envelope of every early failure:
    [HTTPResponse{Body: nil, Status: ResponseStatus{Text: err.Error() + URL,
    Code: -1}, Headers: nil}, err]. *)
Definition failure (err URL : string) : HTTPResponse * error :=
  ({| Body := None;
      Status := {| Text := err ++ URL; Code := -1 |};
      Headers := None |}, Some err).

(** The envelope after the loop: ["Invalid Status Code: " + URL], code [-1]. *)
Definition invalidStatus (URL : string) : HTTPResponse :=
  {| Body := None;
     Status := {| Text := "Invalid Status Code: " ++ URL; Code := -1 |};
     Headers := None |}.

Definition maxBackOffAttempts : Z := 8.

(** [log.Debugf("Status: %s - Resource: %s", resp.Status, URL)]. *)
Definition logStatus {S} (resp : http.Response) (URL : string) : M S unit :=
  emit (EvLog ("Status: " ++ http.resp_Status resp ++ " - Resource: " ++ URL)).

(** Modelled from the spec: [statusOK] lives in a file of the package that is
    not at hand.  The specification has it drain the body into an owned buffer
    and return [{body, status: {text: status-line, code}, headers}] with a nil
    error. *)
Definition statusOK (resp : http.Response) : HTTPResponse * error :=
  ({| Body := Some (http.resp_Body resp);
      Status := {| Text := http.resp_Status resp; Code := http.resp_StatusCode resp |};
      Headers := Some (http.resp_Header resp) |}, None).

(** Modelled from the spec: [statusNotFound], likewise absent, returns
    [{body, status: {text: status-line, code: 404}, headers}] with a nil
    error. *)
Definition statusNotFound (resp : http.Response) : HTTPResponse * error :=
  ({| Body := Some (http.resp_Body resp);
      Status := {| Text := http.resp_Status resp; Code := 404 |};
      Headers := Some (http.resp_Header resp) |}, None).

(** Modelled from the spec: the two classifiers, absent as well, have one
    shape.  Each reads a retry hint from the response, blocks for the hinted
    time or else for the computed backoff of the current attempt count, and
    returns [attempts + 1]; the error is set only when the hint cannot be
    read. *)
Definition classify {S} (hint : http.Response -> RetryHint)
    (resp : http.Response) (expBackoffAttempts : Z) : M S (Z * error) :=
  match hint resp with
  | HintUnreadable msg => ret (expBackoffAttempts + 1, Some msg)
  | HintSeconds d =>
      run emit (EvSleep (WaitHint d)) ;
      ret (expBackoffAttempts + 1, None)
  | NoHint =>
      run emit (EvSleep (WaitBackoff (expBackoffCalc expBackoffAttempts))) ;
      ret (expBackoffAttempts + 1, None)
  end.

Definition statusTooManyRequests `{Env} {S} : http.Response -> Z -> M S (Z * error) :=
  classify retryHint429.

Definition statusForbidden `{Env} {S} : http.Response -> Z -> M S (Z * error) :=
  classify retryHint403.

(** [req.Header.Add(key, value)]: the value is appended to those already
    stored under the canonical form of the key. *)
Definition Header_Add `{Env} (key value : string) (req : http.Request) : http.Request :=
  let k := CanonicalMIMEHeaderKey key in
  let h := http.req_Header req in
  http.mkRequest (http.req_Method req) (http.req_URL req)
    (<[k := default [] (h !! k) ++ [value]]> h) (http.req_Body req).

(** [for k, v := range headers { req.Header.Add(k, v) }].  Go leaves the
    order of a map range open and takes a new one each time the loop is
    entered; here the entries are taken in the order of [map_to_list], the
    same each time.  A statement that names [setHeaders headers req] speaks
    of one range of the map; the statements about all the requests of a call
    give the values under a key up to their order. *)
Definition setHeaders `{Env} (headers : gmap string string) (req : http.Request) : http.Request :=
  fold_left (fun r kv => Header_Add kv.1 kv.2 r) (map_to_list headers) req.

(** What one turn of the loop body ends in: a [return], or the next turn with
    the new counter and the value the loop's own [err] holds. *)
Inductive Step : Type :=
| Return (r : HTTPResponse * error)
| Next (expBackoffAttempts : Z) (err : error).

(** How the [for] statement ends: by a [return] inside the body, or because
    its condition [expBackoffAttempts < maxBackOffAttempts] is false. *)
Inductive LoopExit : Type :=
| Returned (r : HTTPResponse * error)
| ConditionFalse (expBackoffAttempts : Z) (err : error).

(** One of the two retry branches:
    [if resp.StatusCode == status {
       log.Debugf(...)
       expBackoffAttempts, err = classifier(resp, expBackoffAttempts)
       if err != nil { return HTTPResponse{...}, err } }]
    followed by the rest of the body [k]. *)
Definition retryBranch {S} (status : Z)
    (classifier : http.Response -> Z -> M S (Z * error))
    (URL : string) (resp : http.Response)
    (expBackoffAttempts : Z) (err : error)
    (k : Z -> error -> M S Step) : M S Step :=
  if http.resp_StatusCode resp =? status then
    run logStatus resp URL ;
    do '(attempts', err') <- classifier resp expBackoffAttempts ;
    match err' with
    | Some msg => ret (Return (failure msg URL))
    | None => k attempts' err'
    end
  else k expBackoffAttempts err.

(** The [for] statement over a loop body, with fuel for the turns. *)
Fixpoint forLoop {S} (body : Z -> M S Step) (fuel : nat)
    (expBackoffAttempts : Z) (err : error) (s : S)
    : option (LoopExit * list Event * S) :=
  if expBackoffAttempts <? maxBackOffAttempts then
    match fuel with
    | O => None
    | Datatypes.S fuel' =>
        let '(step, evs, s') := body expBackoffAttempts s in
        match step with
        | Return r => Some (Returned r, evs, s')
        | Next attempts' err' =>
            match forLoop body fuel' attempts' err' s' with
            | Some (exit, evs', s'') => Some (exit, evs ++ evs', s'')
            | None => None
            end
        end
    end
  else Some (ConditionFalse expBackoffAttempts err, [], s).

(** ** [Request] as in [httpclient.go] *)
Module Current.
Section WithEnv.
Context `{Env}.

(** The state a call threads: the transport, and the stack of deferred
    [resp.Body.Close()] calls that run when [Request] returns. *)
Record State : Type := mkState {
  transport : Transport;
  deferred : list http.Response;
}.

(** [resp, err := client.Do(req)]. *)
Definition Do (req : http.Request) : M State (http.Response + string) :=
  fun s =>
    let '(out, t') := client_Do (transport s) req in
    (out, [EvDo req out], mkState t' (deferred s)).

(** [if resp != nil && resp.Body != nil { defer resp.Body.Close() }]; a
    response that comes without an error has a body. *)
Definition deferClose (resp : http.Response) : M State unit :=
  fun s => (tt, [], mkState (transport s) (resp :: deferred s)).

(** The body of the [for] statement. *)
Definition iteration (URL verb : string) (headers : gmap string string)
    (body : Reader) (expBackoffAttempts : Z) : M State Step :=
  match http_NewRequest verb URL body with
  | inr err => ret (Return (failure err URL))
  | inl req =>
      (* Set headers. *)
      let req := setHeaders headers req in
      (* Perform the request. *)
      do out <- Do req ;
      match out with
      | inr err => ret (Return (failure err URL))
      | inl resp =>
          run deferClose resp ;
          (* here err == nil *)
          let err : error := None in
          (* Check if the request results in http OK. *)
          if (200 <=? http.resp_StatusCode resp) && (http.resp_StatusCode resp <=? 299)
          then ret (Return (statusOK resp))
          (* Check if the request results in http notFound. *)
          else if http.resp_StatusCode resp =? http.StatusNotFound
          then run logStatus resp URL ; ret (Return (statusNotFound resp))
          else
            (* Check if the request results in http RateLimit error. *)
            retryBranch http.StatusTooManyRequests statusTooManyRequests
              URL resp expBackoffAttempts err (fun expBackoffAttempts err =>
            (* Check if the request result in http Forbidden status. *)
            retryBranch http.StatusForbidden statusForbidden
              URL resp expBackoffAttempts err (fun expBackoffAttempts err =>
            (* expBackoffAttempts += 1 *)
            ret (Next (expBackoffAttempts + 1) err)))
      end
  end.

(** The loop of one call, from [expBackoffAttempts := 0]; every turn that
    does not return adds at least one to the counter, so eight turns of
    fuel are never used up (see [Request_total]). *)
Definition requestLoop (URL verb : string) (headers : gmap string string)
    (body : Reader) (s : State) : option (LoopExit * list Event * State) :=
  forLoop (iteration URL verb headers body) (Z.to_nat maxBackOffAttempts) 0 None s.

(** [func Request(URL string, verb string, headers map[string]string,
    body io.Reader) (HTTPResponse, error)].  The function-level [var err
    error] is shadowed by the [err] that [req, err := ...] declares in the
    loop body, and nothing assigns it: it is [nil] at the final [return]. *)
Definition Request (URL verb : string) (headers : gmap string string)
    (body : Reader) (t : Transport)
    : option ((HTTPResponse * error) * list Event * Transport) :=
  let err : error := None in
  match requestLoop URL verb headers body (mkState t []) with
  | None => None
  | Some (exit, evs, s) =>
      let r := match exit with
               | Returned r => r
               | ConditionFalse _ _ =>
                   (* Generic invalid status code. *)
                   (invalidStatus URL, err)
               end in
      Some (r, evs ++ map EvClose (deferred s), transport s)
  end.

(** [GetURL] and [PostURL]. *)
Definition GetURL (URL : string) (headers : gmap string string) :=
  Request URL "GET" headers None.

Definition PostURL (URL : string) (headers : gmap string string) (body : Reader) :=
  Request URL "POST" headers body.

End WithEnv.
End Current.

(** ** [Request] as in the copy with the package-level [version] *)
Module Legacy.

Definition userAgent : string := "Golang_italia_backend_bot".

(** [var version = "0.0.1_local"]: the value the variable starts with. *)
Definition version0 : string := "0.0.1_local".

Section WithEnv.
Context `{Env}.

(** The state a call threads: the transport and the package-level variable
    [version], which outlives the call. *)
Record State : Type := mkState {
  transport : Transport;
  version : string;
}.

Definition Do (req : http.Request) : M State (http.Response + string) :=
  fun s =>
    let '(out, t') := client_Do (transport s) req in
    (out, [EvDo req out], mkState t' (version s)).

(** [if headers["version"] != "" { version = headers["version"] }]; a
    missing key reads as the empty string. *)
Definition updateVersion (headers : gmap string string) : M State unit :=
  fun s =>
    if String.eqb (default "" (headers !! "version")) ""
    then (tt, [], s)
    else (tt, [], mkState (transport s) (default "" (headers !! "version"))).

Definition getVersion : M State string := fun s => (version s, [], s).

(** The body of the [for] statement. *)
Definition iteration (URL verb : string) (headers : gmap string string)
    (body : Reader) (expBackoffAttempts : Z) : M State Step :=
  match http_NewRequest verb URL body with
  | inr err => ret (Return (failure err URL))
  | inl req =>
      (* Set headers. *)
      let req := setHeaders headers req in
      run updateVersion headers ;
      (* Set special user agent for bot. *)
      do version <- getVersion ;
      let req := Header_Add "User-Agent" (userAgent ++ "/" ++ version) req in
      (* Perform the request. *)
      do out <- Do req ;
      match out with
      | inr err => ret (Return (failure err URL))
      | inl resp =>
          (* here err == nil *)
          let err : error := None in
          (* Check if the request results in http OK. *)
          if http.resp_StatusCode resp =? http.StatusOK
          then ret (Return (statusOK resp))
          else if http.resp_StatusCode resp =? http.StatusCreated
          then ret (Return (statusOK resp))
          (* Check if the request results in http notFound. *)
          else if http.resp_StatusCode resp =? http.StatusNotFound
          then run logStatus resp URL ; ret (Return (statusNotFound resp))
          else
            (* Check if the request results in http RateLimit error. *)
            retryBranch http.StatusTooManyRequests statusTooManyRequests
              URL resp expBackoffAttempts err (fun expBackoffAttempts err =>
            (* Check if the request result in http Forbidden status. *)
            retryBranch http.StatusForbidden statusForbidden
              URL resp expBackoffAttempts err (fun expBackoffAttempts err =>
            ret (Next expBackoffAttempts err)))
      end
  end.

(** [Request]; the loop need not end, hence the fuel. *)
Definition Request (fuel : nat) (URL verb : string)
    (headers : gmap string string) (body : Reader) (s : State)
    : option ((HTTPResponse * error) * list Event * State) :=
  let err : error := None in
  match forLoop (iteration URL verb headers body) fuel 0 None s with
  | None => None
  | Some (exit, evs, s') =>
      let r := match exit with
               | Returned r => r
               | ConditionFalse _ _ => (invalidStatus URL, err)
               end in
      Some (r, evs, s')
  end.

Definition GetURL (fuel : nat) (URL : string) (headers : gmap string string) :=
  Request fuel URL "GET" headers None.

Definition PostURL (fuel : nat) (URL : string) (headers : gmap string string)
    (body : Reader) :=
  Request fuel URL "POST" headers body.

End WithEnv.
End Legacy.

(** ** [HeaderLink] *)

(** The fragment of [github.com/tomnomnom/linkheader] the package uses: the
    [Link] structure and the parser, which is the library's. *)
Module linkheader.

Record Link : Type := mkLink {
  URL : string;
  Rel : string;
  Params : gmap string string;
}.

Class Parser : Type := { Parse : string -> list Link }.

End linkheader.

(** [for _, link := range parsedLinks {
       if link.Rel == command { return link.URL } }
     return ""] *)
Fixpoint rangeLinks (parsedLinks : list linkheader.Link) (command : string) : string :=
  match parsedLinks with
  | [] => ""
  | link :: rest =>
      if String.eqb (linkheader.Rel link) command
      then linkheader.URL link
      else rangeLinks rest command
  end.

(** [func HeaderLink(linkHeader, command string) string]. *)
Definition HeaderLink `{linkheader.Parser} (linkHeader command : string) : string :=
  let parsedLinks := linkheader.Parse linkHeader in
  rangeLinks parsedLinks command.

(** ** Collaborators to run the model on *)

Module Sample.

(** A transport that answers from a script and, once the script is used up,
    with one fixed outcome for ever. *)
Definition Script : Type := list (http.Response + string) * (http.Response + string).

Definition play (t : Script) (req : http.Request) : (http.Response + string) * Script :=
  match t.1 with
  | out :: rest => (out, (rest, t.2))
  | [] => (t.2, ([], t.2))
  end.

Definition hasSpace (s : string) : bool :=
  existsb (Ascii.eqb " "%char) (list_ascii_of_string s).

(** [http.NewRequest] refuses a method that is not a token, as one with a
    space in it; anything else goes through here. *)
Definition newRequest (verb URL : string) (body : Reader) : http.Request + string :=
  if hasSpace verb then inr "net/http: invalid method "
  else inl (http.mkRequest verb URL ∅ body).

(** No retry hint is ever present; header keys are taken as canonical. *)
Definition env : Env := {|
  Transport := Script;
  client_Do := play;
  http_NewRequest := newRequest;
  CanonicalMIMEHeaderKey := fun k => k;
  retryHint429 := fun _ => NoHint;
  retryHint403 := fun _ => NoHint;
|}.

Definition response (code : Z) (status : string) : http.Response :=
  http.mkResponse status code ∅ [].

Definition always (code : Z) (status : string) : Script :=
  ([], inl (response code status)).

(** Eight retry-eligible answers, then a dead line. *)
Definition eightRetryEligible : Script :=
  (repeat (inl (response 429 "429 Too Many Requests")) 4
     ++ repeat (inl (response 403 "403 Forbidden")) 4,
   inr "connection refused").

(** A link-header parser in the manner of the library: one link per
    comma-separated chunk, its pieces separated by semicolons, the target in
    angle brackets and [rel] among the parameters. *)
Fixpoint splitOn (sep : Ascii.ascii) (s : string) : list string :=
  match s with
  | EmptyString => [EmptyString]
  | String c rest =>
      if Ascii.eqb c sep then EmptyString :: splitOn sep rest
      else match splitOn sep rest with
           | [] => [String c EmptyString]
           | piece :: pieces => String c piece :: pieces
           end
  end.

Fixpoint dropWhile (p : Ascii.ascii -> bool) (s : string) : string :=
  match s with
  | EmptyString => EmptyString
  | String c rest => if p c then dropWhile p rest else s
  end.

Definition revString (s : string) : string :=
  string_of_list_ascii (rev (list_ascii_of_string s)).

Definition trim (p : Ascii.ascii -> bool) (s : string) : string :=
  revString (dropWhile p (revString (dropWhile p s))).

Definition isAngle (c : Ascii.ascii) : bool := Ascii.eqb c "<"%char || Ascii.eqb c ">"%char.
Definition isQuote (c : Ascii.ascii) : bool := Ascii.eqb c "034"%char.
Definition isBlank (c : Ascii.ascii) : bool := Ascii.eqb c " "%char.

Definition addPiece (link : linkheader.Link) (piece : string) : linkheader.Link :=
  let piece := trim isBlank piece in
  match piece with
  | EmptyString => link
  | String "<"%char _ =>
      linkheader.mkLink (trim isAngle piece) (linkheader.Rel link) (linkheader.Params link)
  | _ =>
      match splitOn "="%char piece with
      | [key; val] =>
          let val := trim isQuote (trim isBlank val) in
          if String.eqb (trim isBlank key) "rel"
          then linkheader.mkLink (linkheader.URL link) val (linkheader.Params link)
          else linkheader.mkLink (linkheader.URL link) (linkheader.Rel link)
                 (<[trim isBlank key := val]> (linkheader.Params link))
      | _ => link
      end
  end.

Definition parseChunk (chunk : string) : list linkheader.Link :=
  let link := fold_left addPiece (splitOn ";"%char chunk) (linkheader.mkLink "" "" ∅) in
  if String.eqb (linkheader.URL link) "" then [] else [link].

Definition parser : linkheader.Parser :=
  {| linkheader.Parse := fun raw => concat (map parseChunk (splitOn ","%char raw)) |}.

Definition dq : string := String "034"%char EmptyString.

(** [<https://x/2>; rel="next", <https://x/1>; rel="prev"] *)
Definition nextPrev : string :=
  "<https://x/2>; rel=" ++ dq ++ "next" ++ dq ++ ", <https://x/1>; rel=" ++ dq ++ "prev" ++ dq.

End Sample.

(** ** Vocabulary for the statements *)

(** A status code no branch of [Request] in [httpclient.go] names. *)
Definition unclassified (code : Z) : Prop :=
  ~ (200 <= code <= 299) /\ code <> 404 /\ code <> 429 /\ code <> 403.

Definition isDo (ev : Event) : bool :=
  match ev with EvDo _ _ => true | _ => false end.

Definition isSleep (ev : Event) : bool :=
  match ev with EvSleep _ => true | _ => false end.

(** The number of requests sent, and of sleeps, in a trace. *)
Definition sends (evs : list Event) : nat := length (List.filter isDo evs).
Definition sleeps (evs : list Event) : nat := length (List.filter isSleep evs).

(** The integers [0 .. n-1]. *)
Definition upto (n : nat) : list Z := map Z.of_nat (seq 0 n).

(** The value of the package-level [version] once a turn of the legacy loop
    has read [headers]: the entry under ["version"] when it is not empty, the
    old value otherwise. *)
Definition versionAfter (headers : gmap string string) (version : string) : string :=
  if String.eqb (default "" (headers !! "version")) "" then version
  else default "" (headers !! "version").

(** The [User-Agent] value the legacy variant sends for a given [version]. *)
Definition userAgentValue (version : string) : string :=
  Legacy.userAgent ++ "/" ++ version.

(** A status code no branch of the legacy [Request] names. *)
Definition legacyUnclassified (code : Z) : Prop :=
  code <> 200 /\ code <> 201 /\ code <> 404 /\ code <> 429 /\ code <> 403.

(** A hint the classifier can read: none at all, or a number of seconds. *)
Definition readable (hint : RetryHint) : Prop :=
  match hint with
  | HintUnreadable _ => False
  | NoHint | HintSeconds _ => True
  end.

(** A response the loop retries: 429 or 403, with a hint the classifier can
    read. *)
Definition retryEligible `{Env} (resp : http.Response) : Prop :=
  (http.resp_StatusCode resp = 429 /\ readable (retryHint429 resp)) \/
  (http.resp_StatusCode resp = 403 /\ readable (retryHint403 resp)).

(** ** Inputs the statements are run on *)

Module Inputs.

Definition URL : string := "https://api.github.com/repos".

(** A server that answers every request with the same status. *)
Definition answering (code : Z) (status : string) (t : Sample.Script) : Prop :=
  t = Sample.always code status.

(** A line that is down: every send fails. *)
Definition down : Sample.Script := ([], inr "connection refused").

(** The legacy package before any call. *)
Definition fresh (t : Sample.Script) : @Legacy.State Sample.env :=
  @Legacy.mkState Sample.env t Legacy.version0.

Definition withVersion (v : string) : gmap string string := {["version" := v]}.

End Inputs.

(** ** Further vocabulary *)

Definition isLog (ev : Event) : bool :=
  match ev with EvLog _ => true | _ => false end.

Definition isClose (ev : Event) : bool :=
  match ev with EvClose _ => true | _ => false end.

(** The number of [resp.Body.Close()] calls in a trace. *)
Definition closes (evs : list Event) : nat := length (List.filter isClose evs).

(** The responses a trace has received, oldest first. *)
Fixpoint received (evs : list Event) : list http.Response :=
  match evs with
  | [] => []
  | EvDo _ (inl resp) :: rest => resp :: received rest
  | _ :: rest => received rest
  end.

(** The responses [Request] writes a log line for: 404, 429 and 403. *)
Definition noted (resp : http.Response) : bool :=
  (http.resp_StatusCode resp =? http.StatusNotFound)
  || (http.resp_StatusCode resp =? http.StatusTooManyRequests)
  || (http.resp_StatusCode resp =? http.StatusForbidden).

(** The log line of a response, as [logStatus] formats it. *)
Definition logLine (URL : string) (resp : http.Response) : Event :=
  EvLog ("Status: " ++ http.resp_Status resp ++ " - Resource: " ++ URL).

(** The values a request carries under a header key. *)
Definition headerValues (req : http.Request) (key : string) : list string :=
  default [] (http.req_Header req !! key).

(** The values, in the order of the list, of the entries whose key has the
    canonical form [key]. *)
Definition valuesFor `{Env} (key : string) (entries : list (string * string)) : list string :=
  map snd (List.filter (fun kv => bool_decide (CanonicalMIMEHeaderKey kv.1 = key)) entries).

(** [answers t outs]: from state [t] the transport gives the outcomes [outs],
    one per request and whatever the request is. *)
Fixpoint answers `{Env} (t : Transport) (outs : list (http.Response + string)) : Prop :=
  match outs with
  | [] => True
  | out :: rest => forall req, exists t', client_Do t req = (out, t') /\ answers t' rest
  end.

(** Collaborators whose classifiers read the seconds to wait in the
    [Retry-After] header of the response: no header, no hint; a header that is
    not a decimal number cannot be read. *)
Module Hinted.

Definition digit (c : Ascii.ascii) : option Z :=
  let n := Z.of_nat (nat_of_ascii c) in
  if (48 <=? n) && (n <=? 57) then Some (n - 48) else None.

Fixpoint atoi (acc : Z) (s : string) : option Z :=
  match s with
  | EmptyString => Some acc
  | String c rest =>
      match digit c with
      | Some d => atoi (10 * acc + d) rest
      | None => None
      end
  end.

Definition retryAfter (resp : http.Response) : RetryHint :=
  match http.resp_Header resp !! "Retry-After" with
  | Some (EmptyString :: _) => HintUnreadable "strconv.Atoi: parsing: invalid syntax"
  | Some (v :: _) =>
      match atoi 0 v with
      | Some seconds => HintSeconds seconds
      | None => HintUnreadable "strconv.Atoi: parsing: invalid syntax"
      end
  | _ => NoHint
  end.

Definition env : Env := {|
  Transport := Sample.Script;
  client_Do := Sample.play;
  http_NewRequest := Sample.newRequest;
  CanonicalMIMEHeaderKey := fun k => k;
  retryHint429 := retryAfter;
  retryHint403 := retryAfter;
|}.

Definition tooMany (retryAfterValue : string) : http.Response :=
  http.mkResponse "429 Too Many Requests" 429 {["Retry-After" := [retryAfterValue]]} [].

End Hinted.

(** [endsWith URL resp r]: the response [resp] makes the turn that receives it
    return [r]: a success, a 404, or a 429 or 403 whose hint the classifier
    cannot read. *)
Definition endsWith `{Env} (URL : string) (resp : http.Response)
    (r : HTTPResponse * error) : Prop :=
  (200 <= http.resp_StatusCode resp <= 299 /\ r = statusOK resp) \/
  (http.resp_StatusCode resp = 404 /\ r = statusNotFound resp) \/
  (exists msg,
      ((http.resp_StatusCode resp = 429 /\ retryHint429 resp = HintUnreadable msg) \/
       (http.resp_StatusCode resp = 403 /\ retryHint403 resp = HintUnreadable msg)) /\
      r = failure msg URL).

(** * Facts about binary64 and the backoff *)

Lemma cmp_lex_trans (e1 e2 e3 : Z) (m1 m2 m3 : positive) :
  match (e1 ?= e2) with Lt => Lt | Gt => Gt | Eq => Pos.compare_cont Eq m1 m2 end = Lt ->
  match (e2 ?= e3) with Lt => Lt | Gt => Gt | Eq => Pos.compare_cont Eq m2 m3 end = Lt ->
  match (e1 ?= e3) with Lt => Lt | Gt => Gt | Eq => Pos.compare_cont Eq m1 m3 end = Lt.
Proof.
  change (Pos.compare_cont Eq) with Pos.compare.
  destruct (Z.compare_spec e1 e2), (Z.compare_spec e2 e3); try discriminate;
    destruct (Z.compare_spec e1 e3); try lia; try reflexivity; intros H12 H23.
  all: rewrite ?Pos.compare_lt_iff in *; lia.
Qed.

Lemma cmp_lex_trans_opp (e1 e2 e3 : Z) (m1 m2 m3 : positive) :
  match (e1 ?= e2) with Lt => Gt | Gt => Lt | Eq => CompOpp (Pos.compare_cont Eq m1 m2) end = Lt ->
  match (e2 ?= e3) with Lt => Gt | Gt => Lt | Eq => CompOpp (Pos.compare_cont Eq m2 m3) end = Lt ->
  match (e1 ?= e3) with Lt => Gt | Gt => Lt | Eq => CompOpp (Pos.compare_cont Eq m1 m3) end = Lt.
Proof.
  change (Pos.compare_cont Eq) with Pos.compare.
  destruct (Z.compare_spec e1 e2), (Z.compare_spec e2 e3); try discriminate;
    destruct (Z.compare_spec e1 e3); try lia; try reflexivity; intros H12 H23.
  all: destruct (Pos.compare_spec m1 m2), (Pos.compare_spec m2 m3); try discriminate;
    destruct (Pos.compare_spec m1 m3); try lia; try reflexivity.
Qed.

Lemma ltb_trans (x y z : float64.t) :
  float64.ltb x y = true -> float64.ltb y z = true -> float64.ltb x z = true.
Proof.
  unfold float64.ltb, SFltb.
  destruct x as [sx|sx| |sx mx ex], y as [sy|sy| |sy my ey], z as [sz|sz| |sz mz ez];
    simpl; try discriminate; try reflexivity;
    repeat match goal with s : bool |- _ => destruct s end;
    simpl; try discriminate; try reflexivity.
  - intros H1 H2.
    destruct (match (ex ?= ey) with Lt => Gt | Gt => Lt | Eq => CompOpp (Pos.compare_cont Eq mx my) end) eqn:E1; try discriminate.
    destruct (match (ey ?= ez) with Lt => Gt | Gt => Lt | Eq => CompOpp (Pos.compare_cont Eq my mz) end) eqn:E2; try discriminate.
    now rewrite (cmp_lex_trans_opp _ _ _ _ _ _ E1 E2).
  - intros H1 H2.
    destruct (match (ex ?= ey) with Lt => Lt | Gt => Gt | Eq => Pos.compare_cont Eq mx my end) eqn:E1; try discriminate.
    destruct (match (ey ?= ez) with Lt => Lt | Gt => Gt | Eq => Pos.compare_cont Eq my mz end) eqn:E2; try discriminate.
    now rewrite (cmp_lex_trans _ _ _ _ _ _ E1 E2).
Qed.

Lemma Pow2_overflow (n : Z) : 1024 <= n -> math.Pow2 n = float64.pos_inf.
Proof.
  intros Hn.
  unfold math.Pow2, float64.ldexp.
  change (float64.of_Z 1) with (S754_finite false 4503599627370496 (-52)).
  unfold SFldexp, binary_round.
  change (Z.pos (digits2_pos 4503599627370496)) with 53.
  assert (Hf : fexp float64.prec float64.emax (53 + (-52 + n)) = -52 + n).
  { unfold fexp, emin, float64.prec, float64.emax. lia. }
  rewrite Hf. unfold shl_align. rewrite Z.sub_diag.
  unfold binary_round_aux, shr_fexp.
  change (Zdigits2 4503599627370496) with 53.
  rewrite Hf, Z.sub_diag. cbn [shr shr_record_of_loc shr_m loc_of_shr_record shr_r shr_s round_nearest_even].
  change (Zdigits2 4503599627370496) with 53.
  rewrite Hf, Z.sub_diag. cbn [shr shr_record_of_loc shr_m loc_of_shr_record shr_r shr_s round_nearest_even].
  destruct (Z.leb_spec (-52 + n) (float64.emax - float64.prec)); [|reflexivity].
  unfold float64.emax, float64.prec in *. lia.
Qed.

Lemma expBackoffCalc_overflow (n : Z) : 1024 <= n -> expBackoffCalc n = float64.pos_inf.
Proof.
  intros Hn. unfold expBackoffCalc. rewrite Pow2_overflow by assumption. reflexivity.
Qed.

Lemma forallb_upto (p : Z -> bool) (n : nat) :
  forallb p (upto n) = true -> forall a, 0 <= a < Z.of_nat n -> p a = true.
Proof.
  intros Hall a Ha.
  rewrite forallb_forall in Hall. apply Hall.
  unfold upto. apply in_map_iff. exists (Z.to_nat a). split; [lia|].
  apply in_seq. lia.
Qed.

Lemma representsb_sound x q : float64.representsb x q = true -> float64.represents x q.
Proof.
  unfold float64.representsb, float64.represents.
  destruct (float64.to_Q x); [apply Qeq_bool_iff | discriminate].
Qed.

Lemma expBackoffCalc_exact_upto_53 (a : Z) :
  0 <= a <= 53 -> float64.represents (expBackoffCalc a) (backoff_formula a).
Proof.
  intros Ha. apply representsb_sound.
  apply (forallb_upto (fun a => float64.representsb (expBackoffCalc a) (backoff_formula a)) 54);
    [vm_compute; reflexivity | lia].
Qed.

Lemma expBackoffCalc_nonneg (a : Z) :
  0 <= a -> float64.leb (float64.of_Z 0) (expBackoffCalc a) = true.
Proof.
  intros Ha. destruct (Z.lt_ge_cases a 1024) as [Hlt|Hge].
  - apply (forallb_upto (fun a => float64.leb (float64.of_Z 0) (expBackoffCalc a)) 1024);
      [vm_compute; reflexivity | lia].
  - rewrite expBackoffCalc_overflow by assumption. reflexivity.
Qed.

Lemma expBackoffCalc_step (a : Z) :
  0 <= a < 1024 -> float64.ltb (expBackoffCalc a) (expBackoffCalc (a + 1)) = true.
Proof.
  intros Ha.
  apply (forallb_upto (fun a => float64.ltb (expBackoffCalc a) (expBackoffCalc (a + 1))) 1024);
    [vm_compute; reflexivity | lia].
Qed.

Lemma expBackoffCalc_increasing (a b : Z) :
  0 <= a -> a < b -> b <= 1024 ->
  float64.ltb (expBackoffCalc a) (expBackoffCalc b) = true.
Proof.
  intros Ha Hab Hb.
  replace b with (a + 1 + Z.of_nat (Z.to_nat (b - a - 1))) in * by lia.
  generalize dependent (Z.to_nat (b - a - 1)). intros k.
  induction k as [|k IH]; intros Hab Hb.
  - rewrite Z.add_0_r. apply expBackoffCalc_step. lia.
  - apply ltb_trans with (expBackoffCalc (a + 1 + Z.of_nat k)); [apply IH; lia|].
    replace (a + 1 + Z.of_nat (S k)) with (a + 1 + Z.of_nat k + 1) by lia.
    apply expBackoffCalc_step. lia.
Qed.

(** * Facts about the loop *)

(** Case analysis of one turn of either loop body. *)

Ltac unfold_turn H :=
  unfold Current.iteration, Legacy.iteration, retryBranch, statusTooManyRequests,
    statusForbidden, classify, logStatus, Current.Do, Current.deferClose,
    Legacy.Do, Legacy.updateVersion, Legacy.getVersion, bind, ret, emit in H.

Ltac split_turn H :=
  repeat match type of H with
  | context [match http_NewRequest ?v ?u ?b with _ => _ end] =>
      destruct (http_NewRequest v u b) as [?req0|?e] eqn:?Hnew
  | context [client_Do ?t ?r] =>
      destruct (client_Do t r) as [[?resp|?e] ?t'] eqn:?Hdo
  | context [match retryHint429 ?r with _ => _ end] =>
      destruct (retryHint429 r) eqn:?Hhint
  | context [match retryHint403 ?r with _ => _ end] =>
      destruct (retryHint403 r) eqn:?Hhint
  | context [if ?c then _ else _] => destruct c eqn:?Hc
  end.

Ltac turn_cases H :=
  unfold_turn H; split_turn H; cbn in H; inversion H; subst; clear H.

Ltac Zbool :=
  repeat match goal with
  | H : (_ && _)%bool = true |- _ => apply andb_true_iff in H; destruct H
  | H : (_ && _)%bool = false |- _ => apply andb_false_iff in H
  | H : (_ <=? _) = true |- _ => apply Z.leb_le in H
  | H : (_ <=? _) = false |- _ => apply Z.leb_gt in H
  | H : (_ <? _) = true |- _ => apply Z.ltb_lt in H
  | H : (_ <? _) = false |- _ => apply Z.ltb_ge in H
  | H : (_ =? _) = true |- _ => apply Z.eqb_eq in H
  | H : (_ =? _) = false |- _ => apply Z.eqb_neq in H
  end.

Section CurrentFacts.
Context `{Env}.
Variables (URL verb : string) (headers : gmap string string) (body : Reader).

Lemma current_turn_next a s a' err' evs s' :
  Current.iteration URL verb headers body a s = (Next a' err', evs, s') ->
  err' = None /\ a < a'.
Proof.
  intros Hturn. turn_cases Hturn; split; try reflexivity; lia.
Qed.

Lemma forLoop_enough {S} (bodyf : Z -> M S Step) :
  (forall a s a' err' evs s', bodyf a s = (Next a' err', evs, s') -> a < a') ->
  forall fuel a err s, maxBackOffAttempts - a <= Z.of_nat fuel ->
  exists out, forLoop bodyf fuel a err s = Some out.
Proof.
  intros Hinc fuel. induction fuel as [|fuel IH]; intros a err s Hfuel; simpl.
  - destruct (Z.ltb_spec a maxBackOffAttempts); [lia | eauto].
  - destruct (Z.ltb_spec a maxBackOffAttempts); [| eauto].
    destruct (bodyf a s) as [[[r|a' err'] evs] s'] eqn:Hb; [eauto|].
    apply Hinc in Hb.
    destruct (IH a' err' s') as [[[exit evs'] s''] ->]; [lia | eauto].
Qed.

Lemma Request_total t :
  exists out, Current.Request URL verb headers body t = Some out.
Proof.
  unfold Current.Request, Current.requestLoop.
  destruct (forLoop_enough (Current.iteration URL verb headers body)) with
    (fuel := Z.to_nat maxBackOffAttempts) (a := 0) (err := @None string)
    (s := Current.mkState t []) as [[[exit evs] s] ->].
  - intros a s a' err' evs s' Hturn. eapply current_turn_next; eauto.
  - unfold maxBackOffAttempts. lia.
  - eauto.
Qed.
End CurrentFacts.

Lemma sends_app evs evs' : sends (evs ++ evs') = (sends evs + sends evs')%nat.
Proof. unfold sends. now rewrite List.filter_app, length_app. Qed.

Lemma sleeps_app evs evs' : sleeps (evs ++ evs') = (sleeps evs + sleeps evs')%nat.
Proof. unfold sleeps. now rewrite List.filter_app, length_app. Qed.

Lemma sends_closes resps : sends (map EvClose resps) = 0%nat.
Proof. induction resps as [|r resps IH]; [reflexivity | exact IH]. Qed.

Lemma sleeps_closes resps : sleeps (map EvClose resps) = 0%nat.
Proof. induction resps as [|r resps IH]; [reflexivity | exact IH]. Qed.

Section CurrentUnclassified.
Context `{Env}.
Variables (URL verb : string) (headers : gmap string string) (body : Reader).

Lemma current_turn_unclassified a s req0 resp t' :
  http_NewRequest verb URL body = inl req0 ->
  client_Do (Current.transport s) (setHeaders headers req0) = (inl resp, t') ->
  unclassified (http.resp_StatusCode resp) ->
  Current.iteration URL verb headers body a s =
    (Next (a + 1) None, [EvDo (setHeaders headers req0) (inl resp)],
     Current.mkState t' (resp :: Current.deferred s)).
Proof.
  intros Hnew Hdo (H2xx & H404 & H429 & H403).
  unfold Current.iteration, Current.Do, Current.deferClose, retryBranch, bind, ret.
  rewrite Hnew, Hdo.
  unfold http.StatusNotFound, http.StatusTooManyRequests, http.StatusForbidden.
  destruct (Z.leb_spec 200 (http.resp_StatusCode resp)),
    (Z.leb_spec (http.resp_StatusCode resp) 299); try lia; cbn [andb];
    destruct (Z.eqb_spec (http.resp_StatusCode resp) 404); try lia;
    destruct (Z.eqb_spec (http.resp_StatusCode resp) 429); try lia;
    destruct (Z.eqb_spec (http.resp_StatusCode resp) 403); try lia; reflexivity.
Qed.

Variable alive : Transport -> Prop.
Hypothesis Hnew : exists req0, http_NewRequest verb URL body = inl req0.
Hypothesis Halive : forall t req, alive t ->
  exists resp t', client_Do t req = (inl resp, t') /\
                  unclassified (http.resp_StatusCode resp) /\ alive t'.

Lemma current_loop_unclassified (n : nat) : forall fuel a s,
  (n <= fuel)%nat -> a = maxBackOffAttempts - Z.of_nat n -> alive (Current.transport s) ->
  exists evs s',
    forLoop (Current.iteration URL verb headers body) fuel a None s
      = Some (ConditionFalse maxBackOffAttempts None, evs, s') /\
    sends evs = n /\ sleeps evs = 0%nat.
Proof.
  induction n as [|n IH]; intros fuel a s Hfuel Ha Hs.
  - exists [], s. replace a with maxBackOffAttempts by lia.
    destruct fuel; simpl; auto.
  - destruct fuel as [|fuel]; [lia|].
    destruct Hnew as [req0 Hreq0].
    destruct (Halive (Current.transport s) (setHeaders headers req0) Hs)
      as (resp & t' & Hdo & Hcode & Ht').
    pose proof (current_turn_unclassified a s req0 resp t' Hreq0 Hdo Hcode) as Hturn.
    destruct (IH fuel (a + 1) (Current.mkState t' (resp :: Current.deferred s)))
      as (evs & s' & Hloop & Hsends & Hsleeps); [lia | lia | exact Ht' |].
    eexists _, s'. cbn [forLoop].
    destruct (Z.ltb_spec a maxBackOffAttempts); [|lia].
    rewrite Hturn, Hloop. split; [reflexivity|].
    rewrite sends_app, sleeps_app, Hsends, Hsleeps. split; reflexivity.
Qed.

Lemma current_request_unclassified t :
  alive t ->
  exists evs t',
    Current.Request URL verb headers body t = Some ((invalidStatus URL, None), evs, t') /\
    sends evs = 8%nat /\ sleeps evs = 0%nat.
Proof.
  intros Ht.
  destruct (current_loop_unclassified 8 8 0 (Current.mkState t [])) as (evs & s' & Hloop & Hsends & Hsleeps);
    [lia | reflexivity | exact Ht |].
  unfold Current.Request, Current.requestLoop.
  change (Z.to_nat maxBackOffAttempts) with 8%nat. rewrite Hloop.
  eexists _, _. split; [reflexivity|].
  now rewrite sends_app, sleeps_app, sends_closes, sleeps_closes, Hsends, Hsleeps.
Qed.
End CurrentUnclassified.

(** *** Invariants of the loop *)

Section LoopInvariants.
Context {S : Type} (bodyf : Z -> M S Step) (URL : string).

Lemma forLoop_err_nil :
  (forall a s a' err' evs s', bodyf a s = (Next a' err', evs, s') -> err' = None) ->
  forall fuel a s a' err' evs s',
    forLoop bodyf fuel a None s = Some (ConditionFalse a' err', evs, s') -> err' = None.
Proof.
  intros Hbody fuel. induction fuel as [|fuel IH]; intros a s a' err' evs s'; simpl.
  - destruct (a <? maxBackOffAttempts); [discriminate | now inversion 1].
  - destruct (a <? maxBackOffAttempts); [| now inversion 1].
    destruct (bodyf a s) as [[[r|a1 err1] evs1] s1] eqn:Hb; [discriminate|].
    apply Hbody in Hb as ->.
    destruct (forLoop bodyf fuel a1 None s1) as [[[exit evs2] s2]|] eqn:Hloop; [|discriminate].
    inversion 1; subst. eapply IH; eauto.
Qed.

Lemma forLoop_exit_attempts :
  forall fuel a err s a' err' evs s',
    forLoop bodyf fuel a err s = Some (ConditionFalse a' err', evs, s') ->
    maxBackOffAttempts <= a'.
Proof.
  induction fuel as [|fuel IH]; intros a err s a' err' evs s'; simpl.
  - destruct (Z.ltb_spec a maxBackOffAttempts); [discriminate | now inversion 1; subst].
  - destruct (Z.ltb_spec a maxBackOffAttempts); [| now inversion 1; subst].
    destruct (bodyf a s) as [[[r|a1 err1] evs1] s1] eqn:Hb; [discriminate|].
    destruct (forLoop bodyf fuel a1 err1 s1) as [[[exit evs2] s2]|] eqn:Hloop; [|discriminate].
    inversion 1; subst. eapply IH; eauto.
Qed.

(** A failed send ends the turn it happens in, and so the loop. *)
Lemma forLoop_failed_send :
  (forall a s step evs s' pre req e post,
      bodyf a s = (step, evs, s') -> evs = pre ++ EvDo req (inr e) :: post ->
      step = Return (failure e URL) /\ post = []) ->
  forall fuel a err s exit evs s' pre req e post,
    forLoop bodyf fuel a err s = Some (exit, evs, s') ->
    evs = pre ++ EvDo req (inr e) :: post ->
    exit = Returned (failure e URL) /\ post = [].
Proof.
  intros Hbody fuel. induction fuel as [|fuel IH];
    intros a err s exit evs s' pre req e post; simpl.
  - destruct (a <? maxBackOffAttempts); [discriminate|].
    inversion 1; subst. intros Heq. now destruct pre.
  - destruct (a <? maxBackOffAttempts);
      [| inversion 1; subst; intros Heq; now destruct pre].
    destruct (bodyf a s) as [[step evs1] s1] eqn:Hb.
    destruct step as [r|a1 err1].
    + inversion 1; subst. intros Heq.
      destruct (Hbody _ _ _ _ _ _ _ _ _ Hb Heq) as [[= ->] ->]. auto.
    + destruct (forLoop bodyf fuel a1 err1 s1) as [[[exit2 evs2] s2]|] eqn:Hloop; [|discriminate].
      inversion 1; subst. intros Heq.
      apply app_eq_app in Heq as [l [[Hl1 Hl2]|[Hl1 Hl2]]].
      * destruct l as [|ev l].
        -- cbn in Hl2. eapply (IH _ _ _ _ _ _ []); eauto.
        -- inversion Hl2; subst.
           destruct (Hbody _ _ _ _ _ _ _ _ _ Hb eq_refl) as [[=] _].
      * eapply IH; eauto.
Qed.
(** More fuel does not change what a loop that ended has done. *)
Lemma forLoop_more_fuel :
  forall fuel fuel' a err s out,
    (fuel <= fuel')%nat ->
    forLoop bodyf fuel a err s = Some out -> forLoop bodyf fuel' a err s = Some out.
Proof.
  induction fuel as [|fuel IH]; intros fuel' a err s out Hle; simpl.
  - destruct (Z.ltb_spec a maxBackOffAttempts); [discriminate|].
    intros <-. destruct fuel'; simpl;
      destruct (Z.ltb_spec a maxBackOffAttempts); try lia; reflexivity.
  - destruct fuel' as [|fuel']; [lia|]. simpl.
    destruct (a <? maxBackOffAttempts); [|trivial].
    destruct (bodyf a s) as [[[r|a1 err1] evs1] s1]; [trivial|].
    destruct (forLoop bodyf fuel a1 err1 s1) as [out1|] eqn:Hloop; [|discriminate].
    now rewrite (IH fuel' _ _ _ _ ltac:(lia) Hloop).
Qed.

(** A loop that ends in a [return] ends with the turn that returns. *)
Lemma forLoop_returned :
  forall fuel a err s r evs s',
    forLoop bodyf fuel a err s = Some (Returned r, evs, s') ->
    exists a0 s0 pre last, bodyf a0 s0 = (Return r, last, s') /\ evs = pre ++ last.
Proof.
  induction fuel as [|fuel IH]; intros a err s r evs s'; simpl.
  - destruct (a <? maxBackOffAttempts); discriminate.
  - destruct (a <? maxBackOffAttempts); [|discriminate].
    destruct (bodyf a s) as [[[r1|a1 err1] evs1] s1] eqn:Hb.
    + intros [= <- <- <-]. exists a, s, [], evs1. auto.
    + destruct (forLoop bodyf fuel a1 err1 s1) as [[[exit evs2] s2]|] eqn:Hloop; [|discriminate].
      intros [= -> <- <-].
      destruct (IH _ _ _ _ _ _ Hloop) as (a0 & s0 & pre & last & Hlast & ->).
      exists a0, s0, (evs1 ++ pre), last. split; [exact Hlast | apply app_assoc].
Qed.
End LoopInvariants.

Section CurrentInvariants.
Context `{Env}.
Variables (URL verb : string) (headers : gmap string string) (body : Reader).

Lemma current_turn_failed_send a s step evs s' pre req e post :
  Current.iteration URL verb headers body a s = (step, evs, s') ->
  evs = pre ++ EvDo req (inr e) :: post ->
  step = Return (failure e URL) /\ post = [].
Proof.
  intros Hturn. turn_cases Hturn; intros Heq;
    repeat (destruct pre as [|? pre]; cbn in Heq; try discriminate);
    inversion Heq; subst; auto.
Qed.

Lemma current_turn_bad_request a s e :
  http_NewRequest verb URL body = inr e ->
  Current.iteration URL verb headers body a s = (Return (failure e URL), [], s).
Proof. intros Hnew. unfold Current.iteration. now rewrite Hnew. Qed.

(** What a [return] inside the body hands back. *)
Lemma current_turn_return a s r err evs s' :
  Current.iteration URL verb headers body a s = (Return (r, err), evs, s') ->
  (err <> None -> Code (Status r) = -1) /\
  (Code (Status r) <> -1 ->
     err = None /\
     exists req resp, In (EvDo req (inl resp)) evs /\
                      Code (Status r) = http.resp_StatusCode resp) /\
  (err = None -> Code (Status r) <> -1).
Proof.
  intros Hturn. turn_cases Hturn; Zbool; cbn;
    (split; [try congruence; try tauto|]);
    (split; [|try discriminate; intros _; lia]); try tauto.
  all: intros _; (split; [reflexivity|]).
  all: eexists _, _; (split; [left; reflexivity|]); cbn;
    unfold http.StatusNotFound in *; congruence.
Qed.
End CurrentInvariants.

Section CurrentRequest.
Context `{Env}.
Variables (URL verb : string) (headers : gmap string string) (body : Reader).

Lemma current_loop_failed_send fuel a err s exit evs s' pre req e post :
  forLoop (Current.iteration URL verb headers body) fuel a err s = Some (exit, evs, s') ->
  evs = pre ++ EvDo req (inr e) :: post ->
  exit = Returned (failure e URL) /\ post = [].
Proof.
  apply forLoop_failed_send.
  intros; eapply current_turn_failed_send; eauto.
Qed.

Lemma closes_no_send resps pre req out post :
  map EvClose resps <> pre ++ EvDo req out :: post.
Proof.
  revert pre. induction resps as [|r resps IH]; intros [|ev pre]; cbn; try discriminate.
  intros [= _ Heq]. eapply IH; eauto.
Qed.
End CurrentRequest.

Section LegacyFacts.
Context `{Env}.
Variables (URL verb : string) (headers : gmap string string) (body : Reader).

Lemma legacy_turn_bad_request a s e :
  http_NewRequest verb URL body = inr e ->
  Legacy.iteration URL verb headers body a s = (Return (failure e URL), [], s).
Proof. intros Hnew. unfold Legacy.iteration. now rewrite Hnew. Qed.

(** A turn that gets past [http.NewRequest] sets [version] and sends one
    request, the caller's headers first and the [User-Agent] after them. *)
Lemma legacy_turn_send a s step evs s' req0 :
  http_NewRequest verb URL body = inl req0 ->
  Legacy.iteration URL verb headers body a s = (step, evs, s') ->
  Legacy.version s' = versionAfter headers (Legacy.version s) /\
  exists out rest,
    evs = EvDo (Header_Add "User-Agent" (userAgentValue (Legacy.version s'))
                  (setHeaders headers req0)) out :: rest /\
    sends rest = 0%nat.
Proof.
  intros Hnew Hturn. unfold versionAfter, userAgentValue.
  unfold Legacy.iteration in Hturn. rewrite Hnew in Hturn.
  turn_cases Hturn; cbn; (split; [reflexivity|]); eexists _, _; split; reflexivity.
Qed.

Lemma legacy_turn_next a s a' err' evs s' :
  Legacy.iteration URL verb headers body a s = (Next a' err', evs, s') ->
  err' = None /\ a <= a'.
Proof.
  intros Hturn. turn_cases Hturn; split; try reflexivity; lia.
Qed.

(** While the transport answers with codes the legacy body does not name,
    the counter stays where it is and the loop goes on for ever. *)
Variable alive : Transport -> Prop.
Hypothesis Hnew : exists req0, http_NewRequest verb URL body = inl req0.
Hypothesis Halive : forall t req, alive t ->
  exists resp t', client_Do t req = (inl resp, t') /\
                  legacyUnclassified (http.resp_StatusCode resp) /\ alive t'.

Lemma legacy_turn_unclassified a s :
  alive (Legacy.transport s) ->
  exists evs s', Legacy.iteration URL verb headers body a s = (Next a None, evs, s') /\
                 alive (Legacy.transport s').
Proof.
  intros Hs. destruct Hnew as [req0 Hreq0].
  unfold Legacy.iteration, Legacy.updateVersion, Legacy.getVersion, Legacy.Do, bind, ret.
  rewrite Hreq0.
  destruct (String.eqb _ _); cbn [Legacy.transport Legacy.version];
    match goal with |- context [client_Do ?t ?r] =>
      destruct (Halive t r Hs) as (resp & t' & -> & (H200 & H201 & H404 & H429 & H403) & Ht')
    end;
    unfold retryBranch, http.StatusOK, http.StatusCreated, http.StatusNotFound,
      http.StatusTooManyRequests, http.StatusForbidden;
    destruct (Z.eqb_spec (http.resp_StatusCode resp) 200); try lia;
    destruct (Z.eqb_spec (http.resp_StatusCode resp) 201); try lia;
    destruct (Z.eqb_spec (http.resp_StatusCode resp) 404); try lia;
    destruct (Z.eqb_spec (http.resp_StatusCode resp) 429); try lia;
    destruct (Z.eqb_spec (http.resp_StatusCode resp) 403); try lia;
    eexists _, _; (split; [reflexivity | exact Ht']).
Qed.

Lemma legacy_loop_diverges fuel : forall a s,
  a < maxBackOffAttempts -> alive (Legacy.transport s) ->
  forLoop (Legacy.iteration URL verb headers body) fuel a None s = None.
Proof.
  induction fuel as [|fuel IH]; intros a s Ha Hs; simpl;
    destruct (Z.ltb_spec a maxBackOffAttempts); try lia; [reflexivity|].
  destruct (legacy_turn_unclassified a s Hs) as (evs & s' & -> & Hs').
  now rewrite IH.
Qed.

Lemma legacy_request_diverges fuel s :
  alive (Legacy.transport s) ->
  Legacy.Request fuel URL verb headers body s = None.
Proof.
  intros Hs. unfold Legacy.Request.
  rewrite legacy_loop_diverges; [reflexivity | unfold maxBackOffAttempts; lia | exact Hs].
Qed.
End LegacyFacts.

Section RetryEligible.
Context `{Env}.
Variables (URL verb : string) (headers : gmap string string) (body : Reader).

Lemma current_turn_retry a s req0 resp t' :
http_NewRequest verb URL body = inl req0 ->
client_Do (Current.transport s) (setHeaders headers req0) = (inl resp, t') ->
retryEligible resp ->
exists wait,
  Current.iteration URL verb headers body a s =
    (Next (a + 2) None,
     [EvDo (setHeaders headers req0) (inl resp);
      EvLog ("Status: " ++ http.resp_Status resp ++ " - Resource: " ++ URL);
      EvSleep wait],
     Current.mkState t' (resp :: Current.deferred s)).
Proof.
intros Hnew Hdo Helig.
unfold Current.iteration, Current.Do, Current.deferClose, retryBranch,
  statusTooManyRequests, statusForbidden, classify, logStatus, bind, ret, emit.
rewrite Hnew, Hdo.
unfold http.StatusNotFound, http.StatusTooManyRequests, http.StatusForbidden.
destruct Helig as [[-> Hhint]|[-> Hhint]]; cbn [Z.leb Z.eqb andb Z.compare Pos.compare Pos.compare_cont Pos.eqb];
  [destruct (retryHint429 resp) | destruct (retryHint403 resp)];
  try destruct Hhint; cbn;
  replace (a + 1 + 1) with (a + 2) by lia; eexists; reflexivity.
Qed.

Lemma legacy_turn_retry a s req0 resp t' :
http_NewRequest verb URL body = inl req0 ->
let s1 := Legacy.mkState (Legacy.transport s) (versionAfter headers (Legacy.version s)) in
let req := Header_Add "User-Agent" (userAgentValue (Legacy.version s1))
             (setHeaders headers req0) in
client_Do (Legacy.transport s) req = (inl resp, t') ->
retryEligible resp ->
exists wait,
  Legacy.iteration URL verb headers body a s =
    (Next (a + 1) None,
     [EvDo req (inl resp);
      EvLog ("Status: " ++ http.resp_Status resp ++ " - Resource: " ++ URL);
      EvSleep wait],
     Legacy.mkState t' (Legacy.version s1)).
Proof.
intros Hnew s1 req Hdo Helig. subst s1 req.
unfold Legacy.iteration, Legacy.updateVersion, Legacy.getVersion, Legacy.Do, retryBranch,
  statusTooManyRequests, statusForbidden, classify, logStatus, bind, ret, emit.
rewrite Hnew. unfold versionAfter, userAgentValue in *.
cbn [Legacy.version Legacy.transport] in *.
destruct (String.eqb _ _); cbn [Legacy.version Legacy.transport] in *; rewrite Hdo;
  unfold http.StatusOK, http.StatusCreated, http.StatusNotFound,
    http.StatusTooManyRequests, http.StatusForbidden;
  destruct Helig as [[-> Hhint]|[-> Hhint]];
  cbn [Z.leb Z.eqb andb Z.compare Pos.compare Pos.compare_cont Pos.eqb];
  [destruct (retryHint429 resp) | destruct (retryHint403 resp)
  |destruct (retryHint429 resp) | destruct (retryHint403 resp)];
  try destruct Hhint; cbn; eexists; reflexivity.
Qed.
End RetryEligible.

(** * Statements of the specification *)

(** ** The retry loop *)

(** C3 does not hold of the legacy variant.  There a response whose status
    code no branch names leaves the counter where it was: against a server
    that answers 500 to every request, a turn entered with any counter [a]
    sends once, does not sleep and hands on the same [a], so that [Request]
    does not return, however many turns it is allowed.  [httpclient.go],
    which adds one to the counter at the end of every turn, returns the
    invalid-status envelope on the same server after eight sends and no
    sleep. *)
Theorem legacy_unclassified_status_not_counted :
  (forall a, exists evs,
      @Legacy.iteration Sample.env Inputs.URL "GET" ∅ None a
          (Inputs.fresh (Sample.always 500 "500 Internal Server Error"))
        = (Next a None, evs, Inputs.fresh (Sample.always 500 "500 Internal Server Error")) /\
      sends evs = 1%nat /\ sleeps evs = 0%nat) /\
  (forall fuel,
      @Legacy.Request Sample.env fuel Inputs.URL "GET" ∅ None
          (Inputs.fresh (Sample.always 500 "500 Internal Server Error")) = None) /\
  (exists evs t',
      @Current.Request Sample.env Inputs.URL "GET" ∅ None
          (Sample.always 500 "500 Internal Server Error")
        = Some ((invalidStatus Inputs.URL, None), evs, t') /\
      sends evs = 8%nat /\ sleeps evs = 0%nat).
Proof.
  split; [|split].
  - intros a. eexists. split; [vm_compute; reflexivity|]. split; reflexivity.
  - intros fuel.
    apply (@legacy_request_diverges Sample.env Inputs.URL "GET" ∅ None
             (Inputs.answering 500 "500 Internal Server Error")
             (ex_intro _ _ eq_refl)); [|reflexivity].
    intros t req ->. eexists _, _. split; [reflexivity|]. split; [|reflexivity].
    unfold legacyUnclassified. cbn. lia.
  - eexists _, _. split; [vm_compute; reflexivity|]. split; vm_compute; reflexivity.
Qed.

(** C5, as stated, fails on the legacy variant: when the first answer is a
    204 and the second a 200, the legacy [Request] does not return on the
    first attempt; it sends again and returns the second answer, with code
    200. *)
Lemma legacy_passes_over_204 :
  exists evs s',
    @Legacy.Request Sample.env 8 Inputs.URL "GET" ∅ None
        (Inputs.fresh ([inl (Sample.response 204 "204 No Content")],
                       inl (Sample.response 200 "200 OK")))
      = Some (statusOK (Sample.response 200 "200 OK"), evs, s') /\
    received evs = [Sample.response 204 "204 No Content"; Sample.response 200 "200 OK"] /\
    sends evs = 2%nat /\
    Code (Status (statusOK (Sample.response 200 "200 OK")).1) = 200.
Proof.
  eexists _, _. split; [vm_compute; reflexivity|]. repeat split.
Qed.

(** C5, amended.  When the first answer of the transport is a success that
    the copy of [Request] at hand names, a status code in [200, 299] in
    [httpclient.go], 200 or 201 in the legacy variant, [Request] returns on
    that attempt: the trace is the one send (followed, in [httpclient.go], by
    the deferred close), with no sleep and no second send; the error is nil
    and status code, status text, body and headers are those of the
    response. *)
Theorem first_success_returns_at_once `{Env}
    (URL verb : string) (headers : gmap string string) (body : Reader)
    (req0 : http.Request) (resp : http.Response) :
  http_NewRequest verb URL body = inl req0 ->
  (forall t t',
     client_Do t (setHeaders headers req0) = (inl resp, t') ->
     200 <= http.resp_StatusCode resp <= 299 ->
     exists r,
       Current.Request URL verb headers body t
         = Some ((r, None), [EvDo (setHeaders headers req0) (inl resp); EvClose resp], t') /\
       Code (Status r) = http.resp_StatusCode resp /\
       Text (Status r) = http.resp_Status resp /\
       Body r = Some (http.resp_Body resp) /\
       Headers r = Some (http.resp_Header resp)) /\
  (forall fuel s t',
     (1 <= fuel)%nat ->
     client_Do (Legacy.transport s)
       (Header_Add "User-Agent" (userAgentValue (versionAfter headers (Legacy.version s)))
          (setHeaders headers req0)) = (inl resp, t') ->
     http.resp_StatusCode resp = 200 \/ http.resp_StatusCode resp = 201 ->
     exists r,
       Legacy.Request fuel URL verb headers body s
         = Some ((r, None),
                 [EvDo (Header_Add "User-Agent"
                          (userAgentValue (versionAfter headers (Legacy.version s)))
                          (setHeaders headers req0)) (inl resp)],
                 Legacy.mkState t' (versionAfter headers (Legacy.version s))) /\
       Code (Status r) = http.resp_StatusCode resp /\
       Text (Status r) = http.resp_Status resp /\
       Body r = Some (http.resp_Body resp) /\
       Headers r = Some (http.resp_Header resp)).
Proof.
  intros Hnew. split.
  - intros t t' Hdo Hcode.
    exists (statusOK resp).1. split; [|repeat split].
    unfold Current.Request, Current.requestLoop.
    change (Z.to_nat maxBackOffAttempts) with 8%nat. cbn [forLoop].
    change (0 <? maxBackOffAttempts) with true. cbn iota.
    unfold Current.iteration, Current.Do, Current.deferClose, bind, ret.
    rewrite Hnew. cbn [Current.transport Current.deferred]. rewrite Hdo.
    destruct (Z.leb_spec 200 (http.resp_StatusCode resp)); [|lia].
    destruct (Z.leb_spec (http.resp_StatusCode resp) 299); [|lia].
    reflexivity.
  - intros fuel s t' Hfuel Hdo Hcode.
    exists (statusOK resp).1. split; [|repeat split].
    unfold Legacy.Request. destruct fuel as [|fuel]; [lia|]. cbn [forLoop].
    change (0 <? maxBackOffAttempts) with true. cbn iota.
    unfold Legacy.iteration, Legacy.updateVersion, Legacy.getVersion, Legacy.Do, bind, ret.
    rewrite Hnew. unfold versionAfter, userAgentValue in *.
    destruct (String.eqb _ _); cbn [Legacy.version Legacy.transport] in *; rewrite Hdo;
      unfold http.StatusOK, http.StatusCreated;
      destruct Hcode as [-> | ->]; reflexivity.
Qed.

Lemma first_success_returns_at_once_witness :
  200 <= 204 <= 299 /\
  (exists r,
    @Current.Request Sample.env Inputs.URL "GET" ∅ None (Sample.always 204 "204 No Content")
      = Some ((r, None),
              [EvDo (http.mkRequest "GET" Inputs.URL ∅ None)
                 (inl (Sample.response 204 "204 No Content"));
               EvClose (Sample.response 204 "204 No Content")],
              Sample.always 204 "204 No Content") /\
    Code (Status r) = 204) /\
  (exists r evs s',
    @Legacy.Request Sample.env 1 Inputs.URL "POST" ∅ (Some [Byte.x7b; Byte.x7d])
        (Inputs.fresh (Sample.always 201 "201 Created"))
      = Some ((r, None), evs, s') /\
    sends evs = 1%nat /\ Code (Status r) = 201).
Proof.
  split; [lia|]. split.
  - destruct (proj1 (@first_success_returns_at_once Sample.env Inputs.URL "GET" ∅ None
                (http.mkRequest "GET" Inputs.URL ∅ None)
                (Sample.response 204 "204 No Content") eq_refl)
              (Sample.always 204 "204 No Content") (Sample.always 204 "204 No Content")
              eq_refl ltac:(cbn; lia)) as (r & HR & Hc & _).
    exists r. split; [exact HR | exact Hc].
  - destruct (proj2 (@first_success_returns_at_once Sample.env Inputs.URL "POST" ∅
                (Some [Byte.x7b; Byte.x7d])
                (http.mkRequest "POST" Inputs.URL ∅ (Some [Byte.x7b; Byte.x7d]))
                (Sample.response 201 "201 Created") eq_refl)
              1%nat (Inputs.fresh (Sample.always 201 "201 Created"))
              (Sample.always 201 "201 Created")
              ltac:(lia) eq_refl (or_intror eq_refl)) as (r & HR & Hc & _).
    eexists r, _, _. split; [exact HR|]. split; [reflexivity | exact Hc].
Defined.

(** C6.  [Request] always returns, and neither failure is retried.  If
    [http.NewRequest] refuses the input, the result is the envelope with nil
    body, nil headers, code [-1] and the error message followed by the URL as
    status text, together with the error; nothing has been sent.  If a send
    fails, at whatever attempt, the result is that same envelope for the
    error of the send, and what follows the failed send in the trace is only
    the deferred closing of earlier responses: no send, no sleep. *)
Theorem Request_failures_not_retried `{Env}
    (URL verb : string) (headers : gmap string string) (body : Reader)
    (t : Transport) :
  exists res evs t',
    Current.Request URL verb headers body t = Some (res, evs, t') /\
    (forall e, http_NewRequest verb URL body = inr e ->
       res = ({| Body := None;
                 Status := {| Text := e ++ URL; Code := -1 |};
                 Headers := None |}, Some e) /\
       evs = [] /\ t' = t) /\
    (forall pre req e post, evs = pre ++ EvDo req (inr e) :: post ->
       res = ({| Body := None;
                 Status := {| Text := e ++ URL; Code := -1 |};
                 Headers := None |}, Some e) /\
       exists resps, post = map EvClose resps).
Proof.
  destruct (Request_total URL verb headers body t) as [[[res evs] t'] HR].
  exists res, evs, t'. split; [exact HR|]. split.
  - intros e Hnew. revert HR.
    unfold Current.Request, Current.requestLoop.
    change (Z.to_nat maxBackOffAttempts) with 8%nat. cbn [forLoop].
    change (0 <? maxBackOffAttempts) with true. cbn iota.
    rewrite (current_turn_bad_request URL verb headers body _ _ e Hnew).
    now intros [= <- <- <-].
  - intros pre req e post Hevs. revert HR.
    unfold Current.Request, Current.requestLoop.
    destruct (forLoop _ _ _ _ _) as [[[exit evs0] s0]|] eqn:Hloop; [|discriminate].
    intros [= <- Heq <-]. rewrite Hevs in Heq.
    apply app_eq_app in Heq as [l [[Hl1 Hl2]|[Hl1 Hl2]]].
    + destruct l as [|ev l].
      * exfalso. cbn in Hl2. symmetry in Hl2.
        now apply (closes_no_send _ [] _ _ _) in Hl2.
      * inversion Hl2; subst.
        destruct (current_loop_failed_send URL verb headers body _ _ _ _ _ _ _ _ _ _ _
                    Hloop eq_refl) as [-> ->].
        split; [reflexivity|]. exists (Current.deferred s0). reflexivity.
    + exfalso. now apply closes_no_send in Hl2.
Qed.

Lemma Request_failures_not_retried_witness :
  @http_NewRequest Sample.env "BAD VERB" Inputs.URL None = inr "net/http: invalid method " /\
  @Current.Request Sample.env Inputs.URL "BAD VERB" ∅ None Inputs.down
    = Some (failure "net/http: invalid method " Inputs.URL, [], Inputs.down) /\
  @Current.Request Sample.env Inputs.URL "GET" ∅ None Inputs.down
    = Some (failure "connection refused" Inputs.URL,
            [EvDo (http.mkRequest "GET" Inputs.URL ∅ None) (inr "connection refused")],
            Inputs.down).
Proof.
  split; [reflexivity|]. split.
  - destruct (@Request_failures_not_retried Sample.env Inputs.URL "BAD VERB" ∅ None Inputs.down)
      as (res & evs & t' & HR & Hbad & _).
    destruct (Hbad _ eq_refl) as (-> & -> & ->). exact HR.
  - destruct (@Request_failures_not_retried Sample.env Inputs.URL "GET" ∅ None Inputs.down)
      as (res & evs & t' & HR & _ & Hsend).
    assert (Hevs : evs = [] ++ EvDo (http.mkRequest "GET" Inputs.URL ∅ None)
                                 (inr "connection refused") :: []).
    { revert HR. vm_compute. now intros [= _ <- _]. }
    destruct (Hsend _ _ _ _ Hevs) as (Hres & _).
    revert HR. vm_compute. intros HR. exact eq_refl.
Defined.

(** C7.  When the [for] statement ends because its condition is false, the
    counter having reached 8, [Request] returns the envelope with nil body,
    nil headers, the text ["Invalid Status Code: "] followed by the URL and
    code [-1], and as error the value the loop's [err] held last, which is
    nil.  The same holds of the legacy variant. *)
Theorem Request_exhausted_envelope `{Env}
    (URL verb : string) (headers : gmap string string) (body : Reader) :
  (forall t a err evs s,
      Current.requestLoop URL verb headers body (Current.mkState t [])
        = Some (ConditionFalse a err, evs, s) ->
      maxBackOffAttempts <= a /\
      Current.Request URL verb headers body t
        = Some (({| Body := None;
                    Status := {| Text := "Invalid Status Code: " ++ URL; Code := -1 |};
                    Headers := None |}, err),
                evs ++ map EvClose (Current.deferred s), Current.transport s)) /\
  (forall fuel s a err evs s',
      forLoop (Legacy.iteration URL verb headers body) fuel 0 None s
        = Some (ConditionFalse a err, evs, s') ->
      maxBackOffAttempts <= a /\
      Legacy.Request fuel URL verb headers body s
        = Some (({| Body := None;
                    Status := {| Text := "Invalid Status Code: " ++ URL; Code := -1 |};
                    Headers := None |}, err), evs, s')).
Proof.
  split.
  - intros t a err evs s Hloop. split; [eapply forLoop_exit_attempts; eauto|].
    unfold Current.Request. rewrite Hloop.
    unfold Current.requestLoop in Hloop.
    apply forLoop_err_nil in Hloop as ->; [reflexivity|].
    intros a0 s0 a' err' evs' s' Hturn.
    now apply current_turn_next in Hturn.
  - intros fuel s a err evs s' Hloop. split; [eapply forLoop_exit_attempts; eauto|].
    unfold Legacy.Request. rewrite Hloop.
    apply forLoop_err_nil in Hloop as ->; [reflexivity|].
    intros a0 s0 a' err' evs' s0' Hturn.
    now apply legacy_turn_next in Hturn.
Qed.

Lemma Request_exhausted_envelope_witness :
  exists evs s,
    @Current.requestLoop Sample.env Inputs.URL "GET" ∅ None
        (@Current.mkState Sample.env (Sample.always 500 "500 Internal Server Error") [])
      = Some (ConditionFalse 8 None, evs, s) /\
    @Current.Request Sample.env Inputs.URL "GET" ∅ None
        (Sample.always 500 "500 Internal Server Error")
      = Some ((invalidStatus Inputs.URL, None),
              evs ++ map EvClose (Current.deferred s), Current.transport s).
Proof.
  eexists _, _. split; [vm_compute; reflexivity|].
  refine (proj2 (proj1 (@Request_exhausted_envelope Sample.env Inputs.URL "GET" ∅ None)
            (Sample.always 500 "500 Internal Server Error") 8 None _ _ _)).
  vm_compute. reflexivity.
Defined.

(** C1, as stated, fails: run on a transport that yields eight retry-eligible
    answers (four 429, then four 403, none with a retry hint) and no success,
    [Request] returns code [-1] and a status text that ends in the URL, but
    the error is nil.  [httpclient.go] gives up after four sends; the legacy
    variant after all eight. *)
Lemma Request_eight_retry_eligible :
  (exists r err evs t',
     @Current.Request Sample.env Inputs.URL "GET" ∅ None Sample.eightRetryEligible
       = Some ((r, err), evs, t') /\
     Code (Status r) = -1 /\ err = None /\ sends evs = 4%nat) /\
  (exists r err evs s',
     @Legacy.Request Sample.env 8 Inputs.URL "GET" ∅ None (Inputs.fresh Sample.eightRetryEligible)
       = Some ((r, err), evs, s') /\
     Code (Status r) = -1 /\ err = None /\ sends evs = 8%nat).
Proof.
  split; eexists _, _, _, _; (split; [vm_compute; reflexivity|]);
    repeat split; vm_compute; reflexivity.
Qed.

(** C2, as stated, fails: run on a transport that answers 500 to every
    request, [Request] returns a result whose status code is [-1] and whose
    error is nil. *)
Lemma Request_minus_one_with_nil_error :
  exists r err evs t',
    @Current.Request Sample.env Inputs.URL "GET" ∅ None
        (Sample.always 500 "500 Internal Server Error")
      = Some ((r, err), evs, t') /\
    Code (Status r) = -1 /\ err = None.
Proof.
  eexists _, _, _, _. split; [vm_compute; reflexivity|]. split; reflexivity.
Qed.

(** C2, amended.  For every result of [Request]: a non-nil error comes with
    status code [-1]; a status code other than [-1] comes with a nil error
    and is the status code of a response the transport delivered in this
    call; and code [-1] with a nil error is the envelope returned after the
    loop, ["Invalid Status Code: "] followed by the URL. *)
Theorem Request_code_and_error `{Env}
    (URL verb : string) (headers : gmap string string) (body : Reader)
    (t : Transport) (r : HTTPResponse) (err : error) (evs : list Event) (t' : Transport) :
  Current.Request URL verb headers body t = Some ((r, err), evs, t') ->
  (err <> None -> Code (Status r) = -1) /\
  (Code (Status r) <> -1 ->
     err = None /\
     exists req resp, In (EvDo req (inl resp)) evs /\
                      Code (Status r) = http.resp_StatusCode resp) /\
  (Code (Status r) = -1 -> err = None ->
     r = {| Body := None;
            Status := {| Text := "Invalid Status Code: " ++ URL; Code := -1 |};
            Headers := None |}).
Proof.
  unfold Current.Request, Current.requestLoop.
  destruct (forLoop _ _ _ _ _) as [[[exit evs0] s0]|] eqn:Hloop; [|discriminate].
  destruct exit as [r0|a' err'].
  - intros [= -> <- <-].
    apply forLoop_returned in Hloop as (a0 & s1 & pre & last & Hturn & ->).
    apply current_turn_return in Hturn as (Herr & Hcode & Hnil).
    split; [exact Herr|]. split.
    + intros Hc. destruct (Hcode Hc) as (Hn & req & resp & Hin & Hresp).
      split; [exact Hn|]. exists req, resp. split; [|exact Hresp].
      apply in_or_app. left. apply in_or_app. now right.
    + intros Hc Hn. now apply Hnil in Hn.
  - intros [= <- <- <- <-]. cbn. split; [congruence|]. split; [lia | reflexivity].
Qed.

Lemma Request_code_and_error_witness :
  exists evs t',
    @Current.Request Sample.env Inputs.URL "GET" ∅ None (Sample.always 404 "404 Not Found")
      = Some ((mkHTTPResponse (Some []) (mkResponseStatus "404 Not Found" 404) (Some ∅), None),
              evs, t') /\
    exists req resp, In (EvDo req (inl resp)) evs /\ 404 = http.resp_StatusCode resp.
Proof.
  destruct (@Current.Request Sample.env Inputs.URL "GET" ∅ None
              (Sample.always 404 "404 Not Found")) as [[[[r err] evs] t']|] eqn:HR.
  - pose proof (@Request_code_and_error Sample.env _ _ _ _ _ _ _ _ _ HR) as (_ & Hcode & _).
    revert HR Hcode. vm_compute. intros [= <- <- <- <-] Hcode.
    eexists _, _. split; [reflexivity|].
    destruct Hcode as (_ & req & resp & Hin & Hresp); [discriminate|].
    exists req, resp. split; [exact Hin | exact Hresp].
  - exfalso. revert HR. vm_compute. discriminate.
Defined.

(** ** The [User-Agent] header and the package-level [version] *)

(** C8, as stated, fails on [httpclient.go]: with no caller headers the
    request that goes out has no header at all, so no [User-Agent]. *)
Lemma current_sends_no_user_agent :
  exists res req out evs t',
    @Current.Request Sample.env Inputs.URL "GET" ∅ None (Sample.always 200 "200 OK")
      = Some (res, EvDo req out :: evs, t') /\
    http.req_Header req = ∅ /\
    http.req_Header req !! @CanonicalMIMEHeaderKey Sample.env "User-Agent" = None.
Proof.
  eexists _, _, _, _, _. split; [vm_compute; reflexivity|]. split; reflexivity.
Qed.

(** C8, amended.  In the legacy variant every turn of the loop that gets past
    [http.NewRequest] sends exactly one request, which is the new request
    with the caller's headers added and then the value
    [userAgent + "/" + version] added under [User-Agent], so that value is the
    last one stored under the canonical key.  In [httpclient.go] the request
    a turn sends carries the caller's headers and nothing more. *)
Theorem legacy_attaches_user_agent `{Env}
    (URL verb : string) (headers : gmap string string) (body : Reader)
    (req0 : http.Request) :
  http_NewRequest verb URL body = inl req0 ->
  (forall a s step evs s',
      Legacy.iteration URL verb headers body a s = (step, evs, s') ->
      exists out rest before,
        evs = EvDo (Header_Add "User-Agent" (userAgentValue (Legacy.version s'))
                      (setHeaders headers req0)) out :: rest /\
        sends rest = 0%nat /\
        http.req_Header (Header_Add "User-Agent" (userAgentValue (Legacy.version s'))
                           (setHeaders headers req0))
          !! CanonicalMIMEHeaderKey "User-Agent"
          = Some (before ++ [userAgentValue (Legacy.version s')])) /\
  (forall a s step evs s',
      Current.iteration URL verb headers body a s = (step, evs, s') ->
      exists out rest,
        evs = EvDo (setHeaders headers req0) out :: rest /\ sends rest = 0%nat).
Proof.
  intros Hnew. split.
  - intros a s step evs s' Hturn.
    destruct (legacy_turn_send URL verb headers body _ _ _ _ _ _ Hnew Hturn)
      as (_ & out & rest & Hevs & Hrest).
    exists out, rest. eexists. split; [exact Hevs|]. split; [exact Hrest|].
    unfold Header_Add. cbn [http.req_Header]. apply lookup_insert_eq.
  - intros a s step evs s' Hturn.
    unfold Current.iteration in Hturn. rewrite Hnew in Hturn.
    turn_cases Hturn; eexists _, _; split; reflexivity.
Qed.

Lemma legacy_attaches_user_agent_witness :
  @http_NewRequest Sample.env "GET" Inputs.URL None
    = inl (http.mkRequest "GET" Inputs.URL ∅ None) /\
  exists step out rest s',
    @Legacy.iteration Sample.env Inputs.URL "GET" ∅ None 0
        (Inputs.fresh (Sample.always 200 "200 OK"))
      = (step, EvDo (http.mkRequest "GET" Inputs.URL
                       {["User-Agent" := ["Golang_italia_backend_bot/0.0.1_local"]]} None)
                 out :: rest, s').
Proof.
  split; [reflexivity|].
  destruct (@Legacy.iteration Sample.env Inputs.URL "GET" ∅ None 0
              (Inputs.fresh (Sample.always 200 "200 OK"))) as [[step evs] s'] eqn:Hturn.
  destruct (proj1 (@legacy_attaches_user_agent Sample.env Inputs.URL "GET" ∅ None _ eq_refl)
              _ _ _ _ _ Hturn) as (out & rest & before & Hevs & _).
  exists step, out, rest, s'. rewrite Hevs.
  revert Hturn. vm_compute. intros [= _ _ <-]. reflexivity.
Defined.

(** C10, as stated, fails when [http.NewRequest] refuses the input: the call
    returns before it reads [headers], and [version] keeps its value although
    the map has a non-empty entry under ["version"]. *)
Lemma refused_request_keeps_version :
  Inputs.withVersion "2" !! "version" = Some "2" /\
  exists res evs s',
    @Legacy.Request Sample.env 8 Inputs.URL "BAD VERB" (Inputs.withVersion "2") None
        (Inputs.fresh (Sample.always 200 "200 OK"))
      = Some (res, evs, s') /\
    Legacy.version s' = "0.0.1_local".
Proof.
  split; [vm_compute; reflexivity|].
  eexists _, _, _. split; [vm_compute; reflexivity | reflexivity].
Qed.

(** C10, amended.  In the legacy variant every turn of the loop that gets
    past [http.NewRequest] overwrites the package-level [version] with the
    entry of [headers] under ["version"] when that entry is not empty, and
    leaves it as it found it otherwise; it does so before it sends, whether
    or not the call returns.  The request the turn sends carries, as the last
    value under [User-Agent], [userAgent + "/"] followed by the value
    [version] then has, and two values of [version] give two different
    headers.  So what a turn sends depends on the calls before it: the same
    call on the same transport sends [.../0.0.1_local] in a fresh package and
    [.../2] after a call whose headers had ["version"] set to ["2"]. *)
Theorem legacy_turn_overwrites_version :
  (forall (E : Env) (URL verb : string) (headers : gmap string string) (body : Reader)
          (req0 : http.Request) (a : Z) (s : Legacy.State) step evs s',
      http_NewRequest verb URL body = inl req0 ->
      Legacy.iteration URL verb headers body a s = (step, evs, s') ->
      (forall v, headers !! "version" = Some v -> v <> EmptyString ->
         Legacy.version s' = v) /\
      (headers !! "version" = None \/ headers !! "version" = Some EmptyString ->
         Legacy.version s' = Legacy.version s) /\
      exists req out rest before,
        evs = EvDo req out :: rest /\ sends rest = 0%nat /\
        headerValues req (CanonicalMIMEHeaderKey "User-Agent")
          = before ++ [userAgentValue (Legacy.version s')]) /\
  (forall v1 v2, userAgentValue v1 = userAgentValue v2 -> v1 = v2) /\
  (exists res1 req1 out1 res2 evs2 s2 res3 req3 out3 s3,
      @Legacy.Request Sample.env 8 Inputs.URL "GET" ∅ None
          (Inputs.fresh (Sample.always 200 "200 OK"))
        = Some (res1, [EvDo req1 out1], Inputs.fresh (Sample.always 200 "200 OK")) /\
      headerValues req1 "User-Agent" = ["Golang_italia_backend_bot/0.0.1_local"] /\
      @Legacy.Request Sample.env 8 Inputs.URL "GET" (Inputs.withVersion "2") None
          (Inputs.fresh (Sample.always 200 "200 OK"))
        = Some (res2, evs2, s2) /\
      Legacy.transport s2 = Sample.always 200 "200 OK" /\
      @Legacy.Request Sample.env 8 Inputs.URL "GET" ∅ None s2
        = Some (res3, [EvDo req3 out3], s3) /\
      headerValues req3 "User-Agent" = ["Golang_italia_backend_bot/2"]).
Proof.
  split; [|split].
  - intros E URL verb headers body req0 a s step evs s' Hnew Hturn.
    destruct (legacy_turn_send URL verb headers body _ _ _ _ _ _ Hnew Hturn)
      as (Hv & out & rest & Hevs & Hrest).
    split; [|split].
    + intros v Hhv Hne. rewrite Hv. unfold versionAfter. rewrite Hhv. cbn [default id].
      destruct (String.eqb_spec v EmptyString); [contradiction | reflexivity].
    + intros [Hhv|Hhv]; rewrite Hv; unfold versionAfter; rewrite Hhv; cbn; reflexivity.
    + eexists _, out, rest, _. split; [exact Hevs|]. split; [exact Hrest|].
      unfold headerValues, Header_Add. cbn [http.req_Header].
      rewrite lookup_insert_eq. reflexivity.
  - intros v1 v2. unfold userAgentValue, Legacy.userAgent. cbn [String.append].
    intros Heq. now inversion Heq.
  - eexists _, _, _, _, _, _, _, _, _, _.
    split; [vm_compute; reflexivity|].
    split; [vm_compute; reflexivity|].
    split; [vm_compute; reflexivity|].
    split; [vm_compute; reflexivity|].
    split; vm_compute; reflexivity.
Qed.

Lemma legacy_turn_overwrites_version_witness :
  @http_NewRequest Sample.env "GET" Inputs.URL None
    = inl (http.mkRequest "GET" Inputs.URL ∅ None) /\
  Inputs.withVersion "2" !! "version" = Some "2" /\
  (forall fuel,
     @Legacy.Request Sample.env fuel Inputs.URL "GET" (Inputs.withVersion "2") None
         (Inputs.fresh (Sample.always 500 "500 Internal Server Error")) = None) /\
  exists step req out rest s',
    @Legacy.iteration Sample.env Inputs.URL "GET" (Inputs.withVersion "2") None 0
        (Inputs.fresh (Sample.always 500 "500 Internal Server Error"))
      = (step, EvDo req out :: rest, s') /\
    Legacy.version s' = "2" /\
    exists before, headerValues req "User-Agent" = before ++ ["Golang_italia_backend_bot/2"].
Proof.
  split; [reflexivity|]. split; [vm_compute; reflexivity|]. split.
  - intros fuel.
    apply (@legacy_request_diverges Sample.env Inputs.URL "GET" (Inputs.withVersion "2") None
             (Inputs.answering 500 "500 Internal Server Error")
             (ex_intro _ _ eq_refl)); [|reflexivity].
    intros t req ->. eexists _, _. split; [reflexivity|]. split; [|reflexivity].
    unfold legacyUnclassified. cbn. lia.
  - destruct (@Legacy.iteration Sample.env Inputs.URL "GET" (Inputs.withVersion "2") None 0
                (Inputs.fresh (Sample.always 500 "500 Internal Server Error")))
      as [[step evs] s'] eqn:Hturn.
    destruct (proj1 legacy_turn_overwrites_version Sample.env Inputs.URL "GET"
                (Inputs.withVersion "2") None (http.mkRequest "GET" Inputs.URL ∅ None)
                0 _ step evs s' eq_refl Hturn)
      as (Hset & _ & req & out & rest & before & -> & _ & Hvals).
    assert (Hv : Legacy.version s' = "2").
    { apply Hset; [vm_compute; reflexivity | discriminate]. }
    exists step, req, out, rest, s'. split; [reflexivity|]. split; [exact Hv|].
    exists before. rewrite <- Hv. exact Hvals.
Defined.

(** ** [HeaderLink] *)

Lemma rangeLinks_absent links command :
  (forall l, In l links -> linkheader.Rel l <> command) -> rangeLinks links command = "".
Proof.
  induction links as [|link links IH]; intros Habs; [reflexivity|]. cbn.
  destruct (String.eqb_spec (linkheader.Rel link) command) as [Heq|_].
  - exfalso. eapply Habs; [left; reflexivity | exact Heq].
  - apply IH. intros l Hin. apply Habs. now right.
Qed.

Lemma rangeLinks_present links command :
  (exists l, In l links /\ linkheader.Rel l = command) ->
  exists link, In link links /\ linkheader.Rel link = command /\
               rangeLinks links command = linkheader.URL link.
Proof.
  induction links as [|link links IH]; intros (l & Hin & Hrel); [destruct Hin|]. cbn.
  destruct (String.eqb_spec (linkheader.Rel link) command) as [Heq|Hne].
  - exists link. auto.
  - destruct Hin as [->|Hin]; [contradiction|].
    destruct IH as (link' & Hin' & Hrel' & Hurl); [eauto|].
    exists link'. auto.
Qed.

(** C9.  [HeaderLink] is a total function to strings, so it cannot fail.  When
    the parsed list has a link with the requested relation, the result is the
    URL of such a link (the first one); when no link has it, in particular
    when the parser yields nothing, the result is the empty string.  For a
    header parsed as [next -> https://x/2, prev -> https://x/1] and the
    relation ["next"] the result is ["https://x/2"]. *)
Theorem HeaderLink_returns_url_of_relation `{linkheader.Parser}
    (linkHeader command : string) :
  ((exists l, In l (linkheader.Parse linkHeader) /\ linkheader.Rel l = command) ->
     exists link, In link (linkheader.Parse linkHeader) /\
                  linkheader.Rel link = command /\
                  HeaderLink linkHeader command = linkheader.URL link) /\
  ((forall l, In l (linkheader.Parse linkHeader) -> linkheader.Rel l <> command) ->
     HeaderLink linkHeader command = "") /\
  (linkheader.Parse linkHeader = [] -> HeaderLink linkHeader command = "") /\
  (forall p2 p1,
     linkheader.Parse linkHeader
       = [linkheader.mkLink "https://x/2" "next" p2; linkheader.mkLink "https://x/1" "prev" p1] ->
     HeaderLink linkHeader "next" = "https://x/2").
Proof.
  unfold HeaderLink. repeat split.
  - apply rangeLinks_present.
  - apply rangeLinks_absent.
  - intros ->. reflexivity.
  - intros p2 p1 ->. reflexivity.
Qed.

Lemma HeaderLink_returns_url_of_relation_witness :
  @linkheader.Parse Sample.parser Sample.nextPrev
    = [linkheader.mkLink "https://x/2" "next" ∅; linkheader.mkLink "https://x/1" "prev" ∅] /\
  @HeaderLink Sample.parser Sample.nextPrev "next" = "https://x/2" /\
  @HeaderLink Sample.parser Sample.nextPrev "last" = "".
Proof.
  assert (Hparse : @linkheader.Parse Sample.parser Sample.nextPrev
    = [linkheader.mkLink "https://x/2" "next" ∅; linkheader.mkLink "https://x/1" "prev" ∅])
    by (vm_compute; reflexivity).
  split; [exact Hparse|]. split.
  - exact (proj2 (proj2 (proj2
      (@HeaderLink_returns_url_of_relation Sample.parser Sample.nextPrev "next"))) _ _ Hparse).
  - apply (proj1 (proj2
      (@HeaderLink_returns_url_of_relation Sample.parser Sample.nextPrev "last"))).
    rewrite Hparse. intros l [<-|[<-|[]]]; cbn; discriminate.
Defined.

(** ** The backoff calculator *)

(** C4, as stated, fails in binary64: [2^54 - 1] has no representation and
    rounds to [2^54], so the result at 54 is [2^53] and not
    [(2^54 - 1) / 2]; and from 1024 on [math.Pow] overflows, so the results
    at 1024 and at 1025 are both [+Inf] and the function does not increase. *)
Lemma expBackoffCalc_rounds_then_overflows :
  float64.represents (expBackoffCalc 54) (inject_Z (2 ^ 53)) /\
  ~ float64.represents (expBackoffCalc 54) (backoff_formula 54) /\
  expBackoffCalc 1024 = float64.pos_inf /\
  expBackoffCalc 1025 = float64.pos_inf /\
  float64.ltb (expBackoffCalc 1024) (expBackoffCalc 1025) = false.
Proof.
  split; [apply representsb_sound; vm_compute; reflexivity|].
  split; [| repeat split; vm_compute; reflexivity].
  intros Hrep. unfold float64.represents in Hrep.
  assert (Hval : float64.to_Q (expBackoffCalc 54)
                 = Some (inject_Z 4503599627370496 * Qpower 2 1)%Q)
    by (vm_compute; reflexivity).
  rewrite Hval in Hrep. apply Qeq_bool_iff in Hrep. vm_compute in Hrep. discriminate.
Qed.

(** C4, amended.  For every [attempts >= 0]: the result is exactly
    [(2^attempts - 1) / 2] as long as [attempts <= 53], in particular [0] at 0
    and [127.5] at 8; it is never negative (nor NaN); it is strictly smaller
    than the result at any later count up to 1024; and from 1024 on it is
    [+Inf]. *)
Theorem expBackoffCalc_exact_up_to_53 (attempts : Z) :
  0 <= attempts ->
  (attempts <= 53 ->
     float64.represents (expBackoffCalc attempts) (backoff_formula attempts)) /\
  float64.represents (expBackoffCalc 0) 0 /\
  float64.represents (expBackoffCalc 8) (255 # 2) /\
  float64.leb (float64.of_Z 0) (expBackoffCalc attempts) = true /\
  (forall later, attempts < later <= 1024 ->
     float64.ltb (expBackoffCalc attempts) (expBackoffCalc later) = true) /\
  (1024 <= attempts -> expBackoffCalc attempts = float64.pos_inf).
Proof.
  intros Hpos. split; [|split; [|split; [|split; [|split]]]].
  - intros Hle. apply expBackoffCalc_exact_upto_53. lia.
  - apply representsb_sound. vm_compute. reflexivity.
  - apply representsb_sound. vm_compute. reflexivity.
  - now apply expBackoffCalc_nonneg.
  - intros later [Hlt Hle]. now apply expBackoffCalc_increasing.
  - apply expBackoffCalc_overflow.
Qed.

Lemma expBackoffCalc_exact_up_to_53_witness :
  0 <= 8 /\ 8 <= 53 /\
  float64.represents (expBackoffCalc 8) (backoff_formula 8) /\
  float64.ltb (expBackoffCalc 8) (expBackoffCalc 9) = true.
Proof.
  split; [lia|]. split; [lia|].
  destruct (expBackoffCalc_exact_up_to_53 8 ltac:(lia)) as (Hexact & _ & _ & _ & Hinc & _).
  split; [apply Hexact; lia | apply Hinc; lia].
Defined.

(** * Further properties of the code *)

(** ** Traces of [httpclient.go] *)

Lemma closes_app evs evs' : closes (evs ++ evs') = (closes evs + closes evs')%nat.
Proof. unfold closes. now rewrite List.filter_app, length_app. Qed.

Lemma received_app evs evs' : received (evs ++ evs') = received evs ++ received evs'.
Proof.
  induction evs as [|ev evs IH]; [reflexivity|].
  destruct ev as [req [resp|e]| | |]; cbn; now rewrite ?IH.
Qed.

Section CurrentTraces.
Context `{Env}.
Variables (URL verb : string) (headers : gmap string string) (body : Reader).

(** One turn: at most one send, no close, and the response it received, if
    any, is put on the stack of deferred closes. *)
Lemma current_turn_trace a s step evs s' :
  Current.iteration URL verb headers body a s = (step, evs, s') ->
  (sends evs <= 1)%nat /\ closes evs = 0%nat /\
  Current.deferred s' = rev (received evs) ++ Current.deferred s /\
  List.filter isLog evs = map (logLine URL) (List.filter noted (received evs)).
Proof.
  intros Hturn. unfold logLine, noted.
  turn_cases Hturn; Zbool;
    unfold http.StatusNotFound, http.StatusTooManyRequests, http.StatusForbidden in *;
    try (exfalso; lia); cbn;
    repeat match goal with
    | |- context [http.resp_StatusCode ?r =? ?c] =>
        destruct (Z.eqb_spec (http.resp_StatusCode r) c); try (exfalso; lia)
    end;
    cbn; repeat split; try lia; reflexivity.
Qed.

Lemma current_loop_trace fuel : forall a err s exit evs s',
  forLoop (Current.iteration URL verb headers body) fuel a err s = Some (exit, evs, s') ->
  (Z.of_nat (sends evs) <= Z.max 0 (maxBackOffAttempts - a)) /\ closes evs = 0%nat /\
  Current.deferred s' = rev (received evs) ++ Current.deferred s /\
  List.filter isLog evs = map (logLine URL) (List.filter noted (received evs)).
Proof.
  induction fuel as [|fuel IH]; intros a err s exit evs s'; simpl.
  - destruct (Z.ltb_spec a maxBackOffAttempts); [discriminate|].
    intros [= <- <- <-]. cbn. repeat split; lia.
  - destruct (Z.ltb_spec a maxBackOffAttempts);
      [| intros [= <- <- <-]; cbn; repeat split; lia].
    destruct (Current.iteration URL verb headers body a s) as [[step evs1] s1] eqn:Hturn.
    pose proof (current_turn_trace _ _ _ _ _ Hturn) as (Hs1 & Hc1 & Hd1 & Hl1).
    destruct step as [r|a1 err1].
    + intros [= <- <- <-]. repeat split; try assumption. lia.
    + destruct (forLoop _ fuel a1 err1 s1) as [[[exit2 evs2] s2]|] eqn:Hloop; [|discriminate].
      intros [= <- <- <-].
      destruct (IH _ _ _ _ _ _ Hloop) as (Hs2 & Hc2 & Hd2 & Hl2).
      apply current_turn_next in Hturn as [_ Hlt].
      rewrite sends_app, closes_app, received_app, rev_app_distr, List.filter_app,
        List.filter_app, map_app, Hc1, Hc2, Hd2, Hd1, Hl1, Hl2, <- app_assoc.
      repeat split; try reflexivity. lia.
Qed.
End CurrentTraces.

(** X1.  [Request] of [httpclient.go] returns for every input and every
    transport, and no call sends more than eight requests. *)
Theorem Request_returns_within_eight_sends `{Env}
    (URL verb : string) (headers : gmap string string) (body : Reader) (t : Transport) :
  exists res evs t',
    Current.Request URL verb headers body t = Some (res, evs, t') /\
    (sends evs <= 8)%nat.
Proof.
  destruct (Request_total URL verb headers body t) as [[[res evs] t'] HR].
  exists res, evs, t'. split; [exact HR|].
  revert HR. unfold Current.Request, Current.requestLoop.
  destruct (forLoop _ _ _ _ _) as [[[exit evs0] s0]|] eqn:Hloop; [|discriminate].
  intros [= _ <- _].
  apply current_loop_trace in Hloop as (Hsends & _).
  rewrite sends_app, sends_closes. unfold maxBackOffAttempts in Hsends. lia.
Qed.

(** X2.  The bodies of the responses are closed when [Request] returns and not
    before: the trace of a call is what the loop did, with no close in it,
    followed by one close for each response the call received, the latest
    response first. *)
Theorem Request_closes_bodies_at_return `{Env}
    (URL verb : string) (headers : gmap string string) (body : Reader)
    (t : Transport) res evs t' :
  Current.Request URL verb headers body t = Some (res, evs, t') ->
  exists work,
    evs = work ++ map EvClose (rev (received work)) /\
    closes work = 0%nat /\
    closes evs = length (received evs).
Proof.
  unfold Current.Request, Current.requestLoop.
  destruct (forLoop _ _ _ _ _) as [[[exit evs0] s0]|] eqn:Hloop; [|discriminate].
  intros [= _ <- _].
  apply current_loop_trace in Hloop as (_ & Hcl & Hdef & _).
  cbn [Current.deferred] in Hdef. rewrite app_nil_r in Hdef.
  exists evs0. rewrite Hdef. split; [reflexivity|]. split; [exact Hcl|].
  rewrite closes_app, received_app, Hcl.
  assert (Hc : forall l, closes (map EvClose l) = length l /\ received (map EvClose l) = []).
  { induction l as [|x l [IH1 IH2]]; [split; reflexivity|].
    split; [cbn in *; unfold closes in *; cbn; now rewrite IH1 | exact IH2]. }
  destruct (Hc (rev (received evs0))) as [-> ->].
  now rewrite app_nil_r, length_rev.
Qed.

Lemma Request_closes_bodies_at_return_witness :
  exists res evs t',
    @Current.Request Sample.env Inputs.URL "GET" ∅ None
        ([inl (Sample.response 429 "429 Too Many Requests")],
         inl (Sample.response 200 "200 OK")) = Some (res, evs, t') /\
    exists work,
      evs = work ++ [EvClose (Sample.response 200 "200 OK");
                     EvClose (Sample.response 429 "429 Too Many Requests")] /\
      closes work = 0%nat.
Proof.
  destruct (@Current.Request Sample.env Inputs.URL "GET" ∅ None
              ([inl (Sample.response 429 "429 Too Many Requests")],
               inl (Sample.response 200 "200 OK"))) as [[[res evs] t']|] eqn:HR.
  - exists res, evs, t'. split; [reflexivity|].
    destruct (@Request_closes_bodies_at_return Sample.env _ _ _ _ _ _ _ _ HR)
      as (work & Hevs & Hcl & _).
    exists work. split; [|exact Hcl].
    rewrite Hevs. f_equal.
    assert (Hrec : received evs = [Sample.response 429 "429 Too Many Requests";
                                   Sample.response 200 "200 OK"]).
    { revert HR. vm_compute. now intros [= _ <- _]. }
    rewrite Hevs, received_app in Hrec.
    assert (Hnil : forall l, received (map EvClose l) = []) by (induction l; auto).
    rewrite Hnil, app_nil_r in Hrec. now rewrite Hrec.
  - exfalso. revert HR. vm_compute. discriminate.
Defined.

(** X3.  Every log line of a call is the line of a response with status 404,
    429 or 403, and each such response the call receives gets exactly one:
    the log lines of the trace are, in order, the lines
    ["Status: " + resp.Status + " - Resource: " + URL] of those responses.
    Successes, other codes and failed sends are not logged. *)
Theorem Request_logs_noted_responses `{Env}
    (URL verb : string) (headers : gmap string string) (body : Reader)
    (t : Transport) res evs t' :
  Current.Request URL verb headers body t = Some (res, evs, t') ->
  List.filter isLog evs = map (logLine URL) (List.filter noted (received evs)).
Proof.
  unfold Current.Request, Current.requestLoop.
  destruct (forLoop _ _ _ _ _) as [[[exit evs0] s0]|] eqn:Hloop; [|discriminate].
  intros [= _ <- _].
  apply current_loop_trace in Hloop as (_ & _ & _ & Hlog).
  rewrite List.filter_app, received_app, Hlog.
  assert (Hc : forall l, List.filter isLog (map EvClose l) = [] /\ received (map EvClose l) = []).
  { induction l as [|x l [IH1 IH2]]; split; auto. }
  destruct (Hc (Current.deferred s0)) as [-> ->]. now rewrite !app_nil_r.
Qed.

Lemma Request_logs_noted_responses_witness :
  exists res evs t',
    @Current.Request Sample.env Inputs.URL "GET" ∅ None
        ([inl (Sample.response 500 "500 Internal Server Error");
          inl (Sample.response 403 "403 Forbidden")],
         inl (Sample.response 404 "404 Not Found")) = Some (res, evs, t') /\
    List.filter isLog evs
      = [EvLog "Status: 403 Forbidden - Resource: https://api.github.com/repos";
         EvLog "Status: 404 Not Found - Resource: https://api.github.com/repos"].
Proof.
  destruct (@Current.Request Sample.env Inputs.URL "GET" ∅ None
        ([inl (Sample.response 500 "500 Internal Server Error");
          inl (Sample.response 403 "403 Forbidden")],
         inl (Sample.response 404 "404 Not Found"))) as [[[res evs] t']|] eqn:HR.
  - exists res, evs, t'. split; [reflexivity|].
    rewrite (@Request_logs_noted_responses Sample.env _ _ _ _ _ _ _ _ HR).
    revert HR. vm_compute. now intros [= _ <- _].
  - exfalso. revert HR. vm_compute. discriminate.
Defined.

Section CurrentFirstAnswers.
Context `{Env}.
Variables (URL verb : string) (headers : gmap string string) (body : Reader).
Variable req0 : http.Request.
Hypothesis Hnew : http_NewRequest verb URL body = inl req0.

Lemma current_turn_2xx a s resp t' :
  client_Do (Current.transport s) (setHeaders headers req0) = (inl resp, t') ->
  200 <= http.resp_StatusCode resp <= 299 ->
  Current.iteration URL verb headers body a s =
    (Return (statusOK resp), [EvDo (setHeaders headers req0) (inl resp)],
     Current.mkState t' (resp :: Current.deferred s)).
Proof.
  intros Hdo Hcode.
  unfold Current.iteration, Current.Do, Current.deferClose, bind, ret.
  rewrite Hnew, Hdo.
  destruct (Z.leb_spec 200 (http.resp_StatusCode resp)); [|lia].
  destruct (Z.leb_spec (http.resp_StatusCode resp) 299); [|lia].
  reflexivity.
Qed.

Lemma current_loop_retries_then_2xx ok :
  200 <= http.resp_StatusCode ok <= 299 ->
  forall retries fuel a s,
    Forall retryEligible retries ->
    answers (Current.transport s) (map inl retries ++ [inl ok]) ->
    a + 2 * Z.of_nat (length retries) < maxBackOffAttempts ->
    (length retries < fuel)%nat ->
    exists evs s',
      forLoop (Current.iteration URL verb headers body) fuel a None s
        = Some (Returned (statusOK ok), evs, s') /\
      received evs = retries ++ [ok] /\
      sends evs = Datatypes.S (length retries) /\ sleeps evs = length retries.
Proof.
  intros Hok retries. induction retries as [|resp retries IH];
    intros fuel a s Helig Hans Ha Hfuel;
    (destruct fuel as [|fuel]; [cbn in Hfuel; lia|]); cbn [forLoop];
    (destruct (Z.ltb_spec a maxBackOffAttempts); [|cbn in Ha; lia]);
    destruct (Hans (setHeaders headers req0)) as (t' & Hdo & Hrest).
  - rewrite (current_turn_2xx a s ok t' Hdo Hok). eexists _, _.
    split; [reflexivity|]. repeat split; reflexivity.
  - apply Forall_cons in Helig as [Hresp Hretries].
    destruct (current_turn_retry URL verb headers body a s req0 resp t' Hnew Hdo Hresp)
      as [wait Hturn].
    destruct (IH fuel (a + 2) (Current.mkState t' (resp :: Current.deferred s))
                Hretries Hrest) as (evs & s' & Hloop & Hrec & Hsends & Hsleeps).
    { cbn [length] in Ha. lia. }
    { cbn [length] in Hfuel. lia. }
    rewrite Hturn, Hloop. eexists _, _. split; [reflexivity|].
    rewrite received_app, sends_app, sleeps_app, Hrec, Hsends, Hsleeps.
    repeat split; reflexivity.
Qed.

Lemma current_loop_four_retries :
  forall retries fuel a s,
    Forall retryEligible retries ->
    answers (Current.transport s) (map inl retries) ->
    a = maxBackOffAttempts - 2 * Z.of_nat (length retries) ->
    (length retries <= fuel)%nat ->
    exists evs s',
      forLoop (Current.iteration URL verb headers body) fuel a None s
        = Some (ConditionFalse maxBackOffAttempts None, evs, s') /\
      received evs = retries /\
      sends evs = length retries /\ sleeps evs = length retries.
Proof.
  induction retries as [|resp retries IH]; intros fuel a s Helig Hans Ha Hfuel.
  - exists [], s. cbn in Ha. subst a. destruct fuel; cbn; auto.
  - destruct fuel as [|fuel]; [cbn in Hfuel; lia|]. cbn [forLoop].
    destruct (Z.ltb_spec a maxBackOffAttempts); [|cbn [length] in Ha; lia].
    destruct (Hans (setHeaders headers req0)) as (t' & Hdo & Hrest).
    apply Forall_cons in Helig as [Hresp Hretries].
    destruct (current_turn_retry URL verb headers body a s req0 resp t' Hnew Hdo Hresp)
      as [wait Hturn].
    destruct (IH fuel (a + 2)
                (Current.mkState t' (resp :: Current.deferred s)) Hretries Hrest)
      as (evs & s' & Hloop & Hrec & Hsends & Hsleeps).
    { cbn [length] in Ha. lia. }
    { cbn [length] in Hfuel. lia. }
    rewrite Hturn, Hloop. eexists _, _. split; [reflexivity|].
    rewrite received_app, sends_app, sleeps_app, Hrec, Hsends, Hsleeps.
    repeat split; reflexivity.
Qed.
End CurrentFirstAnswers.

Ltac script_answers :=
  repeat match goal with
  | |- answers _ (_ :: _) => intros ?req; eexists; split; [reflexivity|]
  | |- answers _ (map _ _) => cbn [map]
  | |- answers _ (_ ++ _) => cbn [map app]
  | |- answers _ [] => exact I
  end.

(** X4.  Three retry-eligible answers can be survived, four cannot.  A success
    that comes after at most three retry-eligible answers is returned:
    [Request] sends once per answer, sleeps once per retry, and returns what
    [statusOK] makes of the success, with a nil error.  Four retry-eligible
    answers use up the attempts: [Request] gives up after the fourth with the
    invalid-status envelope and a nil error, and never asks for a fifth
    answer, whatever that would have been.  (Each such answer costs the
    classifier's increment and the loop's own.) *)
Theorem Request_survives_three_retries_not_four `{Env}
    (URL verb : string) (headers : gmap string string) (body : Reader)
    (req0 : http.Request) (t : Transport) (retries : list http.Response) :
  http_NewRequest verb URL body = inl req0 ->
  Forall retryEligible retries ->
  (forall ok,
     (length retries <= 3)%nat ->
     answers t (map inl retries ++ [inl ok]) ->
     200 <= http.resp_StatusCode ok <= 299 ->
     exists evs t',
       Current.Request URL verb headers body t = Some (statusOK ok, evs, t') /\
       received evs = retries ++ [ok] /\
       sends evs = Datatypes.S (length retries) /\ sleeps evs = length retries) /\
  (length retries = 4%nat ->
   answers t (map inl retries) ->
   exists evs t',
     Current.Request URL verb headers body t = Some ((invalidStatus URL, None), evs, t') /\
     received evs = retries /\ sends evs = 4%nat).
Proof.
  intros Hnew Helig.
  assert (Hnil : forall l, received (map EvClose l) = []) by (induction l; auto).
  split.
  - intros ok Hlen Hans Hok.
    destruct (current_loop_retries_then_2xx URL verb headers body req0 Hnew ok Hok
                retries 8 0 (Current.mkState t []) Helig Hans)
      as (evs & s' & Hloop & Hrec & Hsends & Hsleeps).
    { unfold maxBackOffAttempts. lia. }
    { lia. }
    unfold Current.Request, Current.requestLoop.
    change (Z.to_nat maxBackOffAttempts) with 8%nat. rewrite Hloop.
    eexists _, _. split; [reflexivity|].
    rewrite received_app, Hnil, app_nil_r, sends_app, sleeps_app, sends_closes,
      sleeps_closes, Hsends, Hsleeps.
    split; [exact Hrec | split; lia].
  - intros Hlen Hans.
    destruct (current_loop_four_retries URL verb headers body req0 Hnew
                retries 8 0 (Current.mkState t []) Helig Hans)
      as (evs & s' & Hloop & Hrec & Hsends & _).
    { unfold maxBackOffAttempts. lia. }
    { lia. }
    unfold Current.Request, Current.requestLoop.
    change (Z.to_nat maxBackOffAttempts) with 8%nat. rewrite Hloop.
    eexists _, _. split; [reflexivity|].
    rewrite sends_app, sends_closes, received_app, Hnil, app_nil_r, Hsends, Hlen.
    split; [exact Hrec | reflexivity].
Qed.

Lemma Request_survives_three_retries_not_four_witness :
  let retry := Sample.response 429 "429 Too Many Requests" in
  let ok := Sample.response 200 "200 OK" in
  (exists evs t',
     @Current.Request Sample.env Inputs.URL "GET" ∅ None
         ([inl retry; inl retry; inl retry], inl ok) = Some (statusOK ok, evs, t') /\
     sends evs = 4%nat /\ sleeps evs = 3%nat) /\
  (exists evs t',
     @Current.Request Sample.env Inputs.URL "GET" ∅ None
         ([inl retry; inl retry; inl retry; inl retry], inl ok)
       = Some ((invalidStatus Inputs.URL, None), evs, t') /\
     received evs = [retry; retry; retry; retry]).
Proof.
  intros retry ok.
  assert (Helig : forall n, Forall (@retryEligible Sample.env) (repeat retry n)).
  { induction n; constructor; [left; split; (reflexivity || exact I) | assumption]. }
  split.
  - assert (Hans : @answers Sample.env ([inl retry; inl retry; inl retry], inl ok)
                     (map inl (repeat retry 3) ++ [inl ok])) by (cbn [repeat]; script_answers).
    destruct (proj1 (@Request_survives_three_retries_not_four Sample.env Inputs.URL "GET"
                       ∅ None _ ([inl retry; inl retry; inl retry], inl ok)
                       (repeat retry 3) eq_refl (Helig 3%nat))
                ok ltac:(cbn; lia) Hans ltac:(cbn; lia))
      as (evs & t' & HR & _ & Hs & Hz).
    exists evs, t'. auto.
  - assert (Hans : @answers Sample.env ([inl retry; inl retry; inl retry; inl retry], inl ok)
                     (map inl (repeat retry 4))) by (cbn [repeat]; script_answers).
    destruct (proj2 (@Request_survives_three_retries_not_four Sample.env Inputs.URL "GET"
                       ∅ None _ ([inl retry; inl retry; inl retry; inl retry], inl ok)
                       (repeat retry 4) eq_refl (Helig 4%nat))
                eq_refl Hans)
      as (evs & t' & HR & Hrec & _).
    exists evs, t'. auto.
Defined.

(** ** Retry-eligible answers, one after another *)

Lemma answers_prefix `{Env} outs more : forall t,
  answers t (outs ++ more) -> answers t outs.
Proof.
  induction outs as [|out outs IH]; intros t Hans; [exact I|].
  intros req. destruct (Hans req) as (t' & Hdo & Hrest).
  exists t'. split; [exact Hdo | now apply IH].
Qed.

Section LegacyAnswers.
Context `{Env}.
Variables (URL verb : string) (headers : gmap string string) (body : Reader).
Variable req0 : http.Request.
Hypothesis Hnew : http_NewRequest verb URL body = inl req0.

Lemma legacy_turn_send_fails a s e :
  (forall req, exists t', client_Do (Legacy.transport s) req = (inr e, t')) ->
  exists req s',
    Legacy.iteration URL verb headers body a s
      = (Return (failure e URL), [EvDo req (inr e)], s').
Proof.
  intros Hdo.
  unfold Legacy.iteration, Legacy.updateVersion, Legacy.getVersion, Legacy.Do, bind, ret.
  rewrite Hnew.
  destruct (String.eqb _ _); cbn [Legacy.transport Legacy.version];
    match goal with |- context [client_Do ?t ?r] =>
      destruct (Hdo r) as (t' & ->) end;
    eexists _, _; reflexivity.
Qed.

Lemma legacy_turn_retry_answer a s resp (P : Transport -> Prop) :
  (forall req, exists t', client_Do (Legacy.transport s) req = (inl resp, t') /\ P t') ->
  retryEligible resp ->
  exists evs s',
    Legacy.iteration URL verb headers body a s = (Next (a + 1) None, evs, s') /\
    received evs = [resp] /\ sends evs = 1%nat /\ sleeps evs = 1%nat /\
    P (Legacy.transport s').
Proof.
  intros Hdo Helig.
  pose proof (legacy_turn_retry URL verb headers body a s req0) as Hstep.
  cbn zeta in Hstep.
  match type of Hstep with context [client_Do ?t ?r] =>
    destruct (Hdo r) as (t' & Hsend & Ht') end.
  destruct (Hstep resp t' Hnew Hsend Helig) as [wait Hturn].
  eexists _, _. split; [exact Hturn|]. repeat split. exact Ht'.
Qed.

Lemma legacy_loop_retries_exhaust : forall retries fuel a s,
  Forall retryEligible retries ->
  answers (Legacy.transport s) (map inl retries) ->
  a = maxBackOffAttempts - Z.of_nat (length retries) ->
  (length retries <= fuel)%nat ->
  exists evs s',
    forLoop (Legacy.iteration URL verb headers body) fuel a None s
      = Some (ConditionFalse maxBackOffAttempts None, evs, s') /\
    received evs = retries /\
    sends evs = length retries /\ sleeps evs = length retries.
Proof.
  induction retries as [|resp retries IH]; intros fuel a s Helig Hans Ha Hfuel.
  - exists [], s. cbn in Ha. subst a. destruct fuel; cbn; auto.
  - destruct fuel as [|fuel]; [cbn in Hfuel; lia|]. cbn [forLoop].
    destruct (Z.ltb_spec a maxBackOffAttempts); [|cbn [length] in Ha; lia].
    apply Forall_cons in Helig as [Hresp Hretries].
    destruct (legacy_turn_retry_answer a s resp (fun t' => answers t' (map inl retries))
                Hans Hresp) as (evs1 & s1 & Hturn & Hrec1 & Hs1 & Hz1 & Hrest).
    destruct (IH fuel (a + 1) s1 Hretries Hrest)
      as (evs & s' & Hloop & Hrec & Hsends & Hsleeps).
    { cbn [length] in Ha. lia. }
    { cbn [length] in Hfuel. lia. }
    rewrite Hturn, Hloop. eexists _, _. split; [reflexivity|].
    rewrite received_app, sends_app, sleeps_app, Hrec1, Hs1, Hz1, Hrec, Hsends, Hsleeps.
    repeat split; reflexivity.
Qed.

Lemma legacy_loop_retries_then_failure e : forall retries fuel a s,
  Forall retryEligible retries ->
  answers (Legacy.transport s) (map inl retries ++ [inr e]) ->
  a + Z.of_nat (length retries) < maxBackOffAttempts ->
  (length retries < fuel)%nat ->
  exists evs s',
    forLoop (Legacy.iteration URL verb headers body) fuel a None s
      = Some (Returned (failure e URL), evs, s') /\
    received evs = retries /\
    sends evs = Datatypes.S (length retries) /\ sleeps evs = length retries.
Proof.
  induction retries as [|resp retries IH]; intros fuel a s Helig Hans Ha Hfuel;
    (destruct fuel as [|fuel]; [cbn in Hfuel; lia|]); cbn [forLoop];
    (destruct (Z.ltb_spec a maxBackOffAttempts); [|cbn in Ha; lia]).
  - destruct (legacy_turn_send_fails a s e) as (req & s' & Hturn).
    { intros req. destruct (Hans req) as (t' & Hdo & _). eauto. }
    rewrite Hturn. eexists _, _. split; [reflexivity|]. repeat split.
  - apply Forall_cons in Helig as [Hresp Hretries].
    destruct (legacy_turn_retry_answer a s resp
                (fun t' => answers t' (map inl retries ++ [inr e]))
                Hans Hresp) as (evs1 & s1 & Hturn & Hrec1 & Hs1 & Hz1 & Hrest).
    destruct (IH fuel (a + 1) s1 Hretries Hrest)
      as (evs & s' & Hloop & Hrec & Hsends & Hsleeps).
    { cbn [length] in Ha. lia. }
    { cbn [length] in Hfuel. lia. }
    rewrite Hturn, Hloop. eexists _, _. split; [reflexivity|].
    rewrite received_app, sends_app, sleeps_app, Hrec1, Hs1, Hz1, Hrec, Hsends, Hsleeps.
    repeat split; reflexivity.
Qed.
End LegacyAnswers.

(** C1, amended.  When the next eight answers of the transport are
    retry-eligible responses (429 or 403, the retry hint absent or readable),
    whatever would come after them, [Request] returns the envelope with code
    [-1] and the text ["Invalid Status Code: "] followed by the URL, and a nil
    error.  In [httpclient.go] each such answer costs two attempts: the call
    has received the first four of the eight, after four sends and four
    sleeps.  In the legacy variant each costs one: the call, given fuel for
    eight turns, has received all eight, after eight sends and eight
    sleeps. *)
Theorem eight_retry_eligible_answers_exhaust_attempts `{Env}
    (URL verb : string) (headers : gmap string string) (body : Reader)
    (req0 : http.Request) (retries : list http.Response) :
  http_NewRequest verb URL body = inl req0 ->
  Forall retryEligible retries ->
  length retries = 8%nat ->
  (forall t, answers t (map inl retries) ->
     exists evs t',
       Current.Request URL verb headers body t
         = Some (({| Body := None;
                     Status := {| Text := "Invalid Status Code: " ++ URL; Code := -1 |};
                     Headers := None |}, None), evs, t') /\
       received evs = firstn 4 retries /\
       sends evs = 4%nat /\ sleeps evs = 4%nat) /\
  (forall fuel s, (8 <= fuel)%nat -> answers (Legacy.transport s) (map inl retries) ->
     exists evs s',
       Legacy.Request fuel URL verb headers body s
         = Some (({| Body := None;
                     Status := {| Text := "Invalid Status Code: " ++ URL; Code := -1 |};
                     Headers := None |}, None), evs, s') /\
       received evs = retries /\
       sends evs = 8%nat /\ sleeps evs = 8%nat).
Proof.
  intros Hnew Helig Hlen. split.
  - intros t Hans.
    assert (Hnil : forall l, received (map EvClose l) = []) by (induction l; auto).
    assert (Hfour : length (firstn 4 retries) = 4%nat).
    { rewrite length_firstn. lia. }
    rewrite <- (firstn_skipn 4 retries) in Helig, Hans.
    apply Forall_app in Helig as [Helig _].
    rewrite map_app in Hans. apply answers_prefix in Hans.
    destruct (current_loop_four_retries URL verb headers body req0 Hnew
                (firstn 4 retries) 8 0 (Current.mkState t []) Helig Hans)
      as (evs & s' & Hloop & Hrec & Hsends & Hsleeps).
    { rewrite Hfour. reflexivity. }
    { lia. }
    unfold Current.Request, Current.requestLoop.
    change (Z.to_nat maxBackOffAttempts) with 8%nat. rewrite Hloop.
    eexists _, _. split; [reflexivity|].
    rewrite received_app, Hnil, app_nil_r, sends_app, sleeps_app, sends_closes,
      sleeps_closes, Hsends, Hsleeps, Hfour.
    split; [exact Hrec | split; reflexivity].
  - intros fuel s Hfuel Hans.
    destruct (legacy_loop_retries_exhaust URL verb headers body req0 Hnew
                retries fuel 0 s Helig Hans)
      as (evs & s' & Hloop & Hrec & Hsends & Hsleeps).
    { rewrite Hlen. reflexivity. }
    { lia. }
    unfold Legacy.Request. rewrite Hloop.
    exists evs, s'. rewrite Hsends, Hsleeps, Hlen. auto.
Qed.

Lemma eight_retry_eligible_answers_exhaust_attempts_witness :
  let retries := repeat (Sample.response 429 "429 Too Many Requests") 4
                   ++ repeat (Sample.response 403 "403 Forbidden") 4 in
  Forall (@retryEligible Sample.env) retries /\
  length retries = 8%nat /\
  @answers Sample.env Sample.eightRetryEligible (map inl retries) /\
  (exists evs t',
     @Current.Request Sample.env Inputs.URL "GET" ∅ None Sample.eightRetryEligible
       = Some ((invalidStatus Inputs.URL, None), evs, t') /\
     received evs = repeat (Sample.response 429 "429 Too Many Requests") 4) /\
  (exists evs s',
     @Legacy.Request Sample.env 8 Inputs.URL "GET" ∅ None
         (Inputs.fresh Sample.eightRetryEligible)
       = Some ((invalidStatus Inputs.URL, None), evs, s') /\
     received evs = retries).
Proof.
  intros retries.
  assert (Helig : Forall (@retryEligible Sample.env) retries).
  { subst retries. cbn [repeat app].
    repeat constructor; first [left; split; [reflexivity | exact I]
                              | right; split; [reflexivity | exact I]]. }
  assert (Hans : @answers Sample.env Sample.eightRetryEligible (map inl retries)).
  { subst retries. cbn [repeat app]. script_answers. }
  split; [exact Helig|]. split; [reflexivity|]. split; [exact Hans|].
  destruct (@eight_retry_eligible_answers_exhaust_attempts Sample.env Inputs.URL "GET" ∅ None
              (http.mkRequest "GET" Inputs.URL ∅ None) retries eq_refl Helig eq_refl)
    as [Hcurrent Hlegacy].
  split.
  - destruct (Hcurrent Sample.eightRetryEligible Hans) as (evs & t' & HR & Hrec & _).
    exists evs, t'. split; [exact HR | exact Hrec].
  - destruct (Hlegacy 8%nat (Inputs.fresh Sample.eightRetryEligible) ltac:(lia) Hans)
      as (evs & s' & HR & Hrec & _).
    exists evs, s'. split; [exact HR | exact Hrec].
Defined.

Section CurrentTerminal.
Context `{Env}.
Variables (URL verb : string) (headers : gmap string string) (body : Reader).

Lemma current_turn_received a s step evs s' :
  Current.iteration URL verb headers body a s = (step, evs, s') ->
  received evs = [] \/
  exists resp, received evs = [resp] /\ forall r, endsWith URL resp r -> step = Return r.
Proof.
  intros Hturn. unfold endsWith.
  turn_cases Hturn; Zbool;
    unfold http.StatusNotFound, http.StatusTooManyRequests, http.StatusForbidden in *;
    try (exfalso; lia); cbn; auto; right; eexists; (split; [reflexivity|]);
    intros r [[Hcode ->]|[[Hcode ->]|(m & [[Hcode Hm]|[Hcode Hm]] & ->)]];
    try (exfalso; lia); try reflexivity; congruence.
Qed.

Lemma current_loop_received fuel : forall a err s exit evs s' pre resp post r,
  forLoop (Current.iteration URL verb headers body) fuel a err s = Some (exit, evs, s') ->
  received evs = pre ++ resp :: post ->
  endsWith URL resp r ->
  exit = Returned r /\ post = [].
Proof.
  induction fuel as [|fuel IH]; intros a err s exit evs s' pre resp post r; simpl.
  - destruct (a <? maxBackOffAttempts); [discriminate|].
    intros [= <- <- <-] Hrec. now destruct pre.
  - destruct (a <? maxBackOffAttempts);
      [| intros [= <- <- <-] Hrec; now destruct pre].
    destruct (Current.iteration URL verb headers body a s) as [[step evs1] s1] eqn:Hturn.
    apply current_turn_received in Hturn as [Hnone|(r1 & Hone & Hends)].
    + destruct step as [r0|a1 err1].
      * intros [= <- <- <-] Hrec. rewrite Hnone in Hrec. now destruct pre.
      * destruct (forLoop _ fuel a1 err1 s1) as [[[exit2 evs2] s2]|] eqn:Hloop; [|discriminate].
        intros [= <- <- <-] Hrec Hr. rewrite received_app, Hnone in Hrec.
        eapply IH; eauto.
    + destruct step as [r0|a1 err1].
      * intros [= <- <- <-] Hrec Hr. rewrite Hone in Hrec.
        destruct pre as [|x pre]; [|destruct pre; discriminate].
        injection Hrec as <- <-. injection (Hends _ Hr) as ->. auto.
      * destruct (forLoop _ fuel a1 err1 s1) as [[[exit2 evs2] s2]|] eqn:Hloop; [|discriminate].
        intros [= <- <- <-] Hrec Hr. rewrite received_app, Hone in Hrec.
        destruct pre as [|x pre].
        -- injection Hrec as <- _. discriminate (Hends _ Hr).
        -- injection Hrec as _ Hrec. eapply IH; eauto.
Qed.
End CurrentTerminal.

(** X5.  [Request] stops at the first answer that settles the call.  If any
    response the call receives is a success (200-299), a 404, or a 429 or 403
    whose retry hint cannot be read, then it is the last response the call
    receives, and the result is the one that response stands for: what
    [statusOK] or [statusNotFound] makes of it, or the [-1] envelope with the
    classifier's error.  No request is sent after it. *)
Theorem Request_stops_at_settling_response `{Env}
    (URL verb : string) (headers : gmap string string) (body : Reader)
    (t : Transport) res evs t' pre resp post r :
  Current.Request URL verb headers body t = Some (res, evs, t') ->
  received evs = pre ++ resp :: post ->
  endsWith URL resp r ->
  res = r /\ post = [].
Proof.
  unfold Current.Request, Current.requestLoop.
  destruct (forLoop _ _ _ _ _) as [[[exit evs0] s0]|] eqn:Hloop; [|discriminate].
  intros [= <- <- _] Hrec Hends.
  assert (Hnil : forall l, received (map EvClose l) = []) by (induction l; auto).
  rewrite received_app, Hnil, app_nil_r in Hrec.
  destruct (current_loop_received URL verb headers body _ _ _ _ _ _ _ _ _ _ _
              Hloop Hrec Hends) as [-> ->].
  split; reflexivity.
Qed.

Lemma Request_stops_at_settling_response_witness :
  let busy := Hinted.tooMany "2" in
  let broken := Hinted.tooMany "soon" in
  exists evs t',
    @Current.Request Hinted.env Inputs.URL "GET" ∅ None
        ([inl busy; inl broken], inl (Sample.response 200 "200 OK"))
      = Some (failure "strconv.Atoi: parsing: invalid syntax" Inputs.URL, evs, t') /\
    received evs = [busy; broken] /\
    sleeps evs = 1%nat.
Proof.
  intros busy broken.
  destruct (@Current.Request Hinted.env Inputs.URL "GET" ∅ None
        ([inl busy; inl broken], inl (Sample.response 200 "200 OK")))
    as [[[res evs] t']|] eqn:HR.
  - assert (Hrec : received evs = [busy] ++ broken :: []).
    { revert HR. vm_compute. now intros [= _ <- _]. }
    destruct (@Request_stops_at_settling_response Hinted.env _ _ _ _ _ _ _ _ _ _ _
                (failure "strconv.Atoi: parsing: invalid syntax" Inputs.URL) HR Hrec)
      as [-> _].
    { right. right. eexists. split; [left; split; reflexivity | reflexivity]. }
    exists evs, t'. split; [reflexivity|]. split; [exact Hrec|].
    revert HR. vm_compute. now intros [= <- _].
  - exfalso. revert HR. vm_compute. discriminate.
Defined.

(** ** Headers *)

Section Headers.
Context `{Env}.

Lemma Header_Add_values k v req key :
  headerValues (Header_Add k v req) key
    = headerValues req key ++ (if decide (CanonicalMIMEHeaderKey k = key) then [v] else []).
Proof.
  unfold headerValues, Header_Add. cbn [http.req_Header].
  rewrite lookup_insert. destruct (decide (CanonicalMIMEHeaderKey k = key)) as [->|Hne].
  - reflexivity.
  - now rewrite app_nil_r.
Qed.

Lemma fold_Header_Add_values entries : forall req key,
  headerValues (fold_left (fun r kv => Header_Add kv.1 kv.2 r) entries req) key
    = headerValues req key ++ valuesFor key entries.
Proof.
  induction entries as [|[k v] entries IH]; intros req key; cbn [fold_left].
  - unfold valuesFor. cbn. now rewrite app_nil_r.
  - rewrite IH, Header_Add_values, <- app_assoc. f_equal.
    unfold valuesFor. cbn [List.filter fst snd].
    destruct (decide (CanonicalMIMEHeaderKey k = key)) as [Heq|Hne].
    + now rewrite bool_decide_eq_true_2.
    + now rewrite bool_decide_eq_false_2.
Qed.

Lemma fold_Header_Add_rest entries : forall req,
  http.req_Method (fold_left (fun r kv => Header_Add kv.1 kv.2 r) entries req)
    = http.req_Method req /\
  http.req_URL (fold_left (fun r kv => Header_Add kv.1 kv.2 r) entries req)
    = http.req_URL req /\
  http.req_Body (fold_left (fun r kv => Header_Add kv.1 kv.2 r) entries req)
    = http.req_Body req.
Proof.
  induction entries as [|[k v] entries IH]; intros req; cbn [fold_left fst snd]; [auto|].
  destruct (IH (Header_Add k v req)) as (-> & -> & ->). auto.
Qed.

Lemma setHeaders_entry_in (headers : gmap string string) req k v :
  headers !! k = Some v ->
  In v (headerValues (setHeaders headers req) (CanonicalMIMEHeaderKey k)).
Proof.
  intros Hkv. unfold setHeaders. rewrite fold_Header_Add_values.
  apply in_or_app. right.
  unfold valuesFor. apply in_map_iff. exists (k, v). split; [reflexivity|].
  apply filter_In. split.
  - apply list_elem_of_In, elem_of_map_to_list. exact Hkv.
  - now apply bool_decide_eq_true_2.
Qed.
End Headers.

(** X6.  The caller's headers are added, not set.  After the header loop the
    values a request carries under a canonical key are the ones it had,
    followed by the value of every entry of [headers] whose key has that
    canonical form; nothing is replaced or dropped, so two keys with one
    canonical form leave two values, and every entry of the map is on the
    request.  Method, URL and body are untouched. *)
Theorem setHeaders_adds_every_entry `{Env}
    (headers : gmap string string) (req : http.Request) (key : string) :
  headerValues (setHeaders headers req) key
    = headerValues req key ++ valuesFor key (map_to_list headers) /\
  (forall k v, headers !! k = Some v ->
     In v (headerValues (setHeaders headers req) (CanonicalMIMEHeaderKey k))) /\
  http.req_Method (setHeaders headers req) = http.req_Method req /\
  http.req_URL (setHeaders headers req) = http.req_URL req /\
  http.req_Body (setHeaders headers req) = http.req_Body req.
Proof.
  split; [apply fold_Header_Add_values|]. split.
  - intros k v Hkv. now apply setHeaders_entry_in.
  - apply fold_Header_Add_rest.
Qed.

Lemma setHeaders_adds_every_entry_witness :
  let headers : gmap string string := {["Accept" := "application/json"]} in
  headers !! "Accept" = Some "application/json" /\
  @headerValues
    (@setHeaders Sample.env headers
       (http.mkRequest "GET" Inputs.URL {["Accept" := ["text/html"]]} None)) "Accept"
    = ["text/html"; "application/json"].
Proof.
  intros headers. split; [vm_compute; reflexivity|].
  rewrite (proj1 (@setHeaders_adds_every_entry Sample.env headers _ "Accept")).
  vm_compute. reflexivity.
Defined.

(** X7.  In the legacy variant a [User-Agent] the caller supplies is kept: the
    request a turn sends carries the caller's value and, after it, as the
    last value under the key, [userAgent + "/" + version]. *)
Theorem legacy_keeps_caller_user_agent `{Env}
    (URL verb : string) (headers : gmap string string) (body : Reader)
    (req0 : http.Request) (k v : string) a s step evs s' :
  http_NewRequest verb URL body = inl req0 ->
  headers !! k = Some v ->
  CanonicalMIMEHeaderKey k = CanonicalMIMEHeaderKey "User-Agent" ->
  Legacy.iteration URL verb headers body a s = (step, evs, s') ->
  exists req out rest before,
    evs = EvDo req out :: rest /\ sends rest = 0%nat /\
    headerValues req (CanonicalMIMEHeaderKey "User-Agent")
      = before ++ [userAgentValue (Legacy.version s')] /\
    In v before.
Proof.
  intros Hnew Hkv Hcanon Hturn.
  destruct (legacy_turn_send URL verb headers body _ _ _ _ _ _ Hnew Hturn)
    as (_ & out & rest & Hevs & Hrest).
  eexists _, out, rest, _. split; [exact Hevs|]. split; [exact Hrest|].
  rewrite Header_Add_values. rewrite decide_True by reflexivity.
  split; [reflexivity|].
  rewrite <- Hcanon.
  now apply setHeaders_entry_in.
Qed.

Lemma legacy_keeps_caller_user_agent_witness :
  let headers : gmap string string := {["User-Agent" := "crawler/3"]} in
  headers !! "User-Agent" = Some "crawler/3" /\
  exists step req out rest s',
    @Legacy.iteration Sample.env Inputs.URL "GET" headers None 0
        (Inputs.fresh (Sample.always 200 "200 OK")) = (step, EvDo req out :: rest, s') /\
    @headerValues req "User-Agent" = ["crawler/3"; "Golang_italia_backend_bot/0.0.1_local"].
Proof.
  intros headers. split; [vm_compute; reflexivity|].
  destruct (@Legacy.iteration Sample.env Inputs.URL "GET" headers None 0
              (Inputs.fresh (Sample.always 200 "200 OK"))) as [[step evs] s'] eqn:Hturn.
  destruct (@legacy_keeps_caller_user_agent Sample.env Inputs.URL "GET" headers None
              (http.mkRequest "GET" Inputs.URL ∅ None) "User-Agent" "crawler/3"
              0 _ step evs s' eq_refl ltac:(vm_compute; reflexivity) eq_refl Hturn)
    as (req & out & rest & before & -> & _ & Hvals & _).
  exists step, req, out, rest, s'. split; [reflexivity|].
  revert Hturn. vm_compute. now intros [= _ <- _ _ _].
Defined.

(** ** What a call sends *)

Section CurrentSends.
Context `{Env}.
Variables (URL verb : string) (headers : gmap string string) (body : Reader).
Variable req0 : http.Request.
Hypothesis Hnew : http_NewRequest verb URL body = inl req0.

Lemma current_turn_request a s step evs s' req out :
  Current.iteration URL verb headers body a s = (step, evs, s') ->
  In (EvDo req out) evs -> req = setHeaders headers req0.
Proof.
  intros Hturn. unfold Current.iteration in Hturn. rewrite Hnew in Hturn.
  turn_cases Hturn; cbn; intros Hin;
    repeat (destruct Hin as [Hin|Hin]; [try discriminate; now inversion Hin|]);
    destruct Hin.
Qed.

Lemma current_loop_request fuel : forall a err s exit evs s' req out,
  forLoop (Current.iteration URL verb headers body) fuel a err s = Some (exit, evs, s') ->
  In (EvDo req out) evs -> req = setHeaders headers req0.
Proof.
  induction fuel as [|fuel IH]; intros a err s exit evs s' req out; simpl.
  - destruct (a <? maxBackOffAttempts); [discriminate|]. now intros [= <- <- <-] [].
  - destruct (a <? maxBackOffAttempts); [| now intros [= <- <- <-] []].
    destruct (Current.iteration URL verb headers body a s) as [[step evs1] s1] eqn:Hturn.
    destruct step as [r|a1 err1].
    + intros [= <- <- <-] Hin. eapply current_turn_request; eauto.
    + destruct (forLoop _ fuel a1 err1 s1) as [[[exit2 evs2] s2]|] eqn:Hloop; [|discriminate].
      intros [= <- <- <-] Hin. apply in_app_or in Hin as [Hin|Hin].
      * eapply current_turn_request; eauto.
      * eapply IH; eauto.
Qed.
End CurrentSends.

Lemma valuesFor_Permutation `{Env} key entries entries' :
  Permutation entries entries' ->
  Permutation (valuesFor key entries) (valuesFor key entries').
Proof.
  unfold valuesFor. induction 1 as [|kv l l' _ IH|kv kv' l|l l' l'' _ IH1 _ IH2];
    cbn [List.filter].
  - constructor.
  - destruct (bool_decide _); cbn [map]; [now constructor | exact IH].
  - destruct (bool_decide _), (bool_decide _); cbn [map];
      first [apply perm_swap | reflexivity].
  - etransitivity; eassumption.
Qed.

(** X8.  Every request a call of [GetURL] sends, the first and every retry,
    has the method, the URL and the body [http.NewRequest] gives for the
    method ["GET"], the URL and no body, and carries under every key the
    values [http.NewRequest] put there followed by the values of the caller's
    entries for that key, each once, in the order the range of that turn took
    them.  The header loop gives that whatever order the range takes. *)
Theorem GetURL_requests_carry_caller_headers `{Env}
    (URL : string) (headers : gmap string string) :
  (forall t res evs t' req out,
     Current.GetURL URL headers t = Some (res, evs, t') ->
     In (EvDo req out) evs ->
     exists req0, http_NewRequest "GET" URL None = inl req0 /\
       http.req_Method req = http.req_Method req0 /\
       http.req_URL req = http.req_URL req0 /\
       http.req_Body req = http.req_Body req0 /\
       forall key, exists vals,
         Permutation vals (valuesFor key (map_to_list headers)) /\
         headerValues req key = headerValues req0 key ++ vals) /\
  (forall entries req0 key,
     Permutation entries (map_to_list headers) ->
     exists vals,
       Permutation vals (valuesFor key (map_to_list headers)) /\
       headerValues (fold_left (fun r kv => Header_Add kv.1 kv.2 r) entries req0) key
         = headerValues req0 key ++ vals).
Proof.
  split.
  - intros t res evs t' req out.
    unfold Current.GetURL, Current.Request, Current.requestLoop.
    destruct (forLoop _ _ _ _ _) as [[[exit evs0] s0]|] eqn:Hloop; [|discriminate].
    intros [= _ <- _] Hin.
    apply in_app_or in Hin as [Hin|Hin].
    + destruct (http_NewRequest "GET" URL None) as [req0|e] eqn:Hnew.
      * exists req0. split; [reflexivity|].
        rewrite (current_loop_request URL "GET" headers None req0 Hnew
                   _ _ _ _ _ _ _ _ _ Hloop Hin).
        unfold setHeaders.
        destruct (fold_Header_Add_rest (map_to_list headers) req0) as (-> & -> & ->).
        repeat (split; [reflexivity|]).
        intros key. exists (valuesFor key (map_to_list headers)).
        split; [reflexivity | apply fold_Header_Add_values].
      * exfalso. revert Hloop Hin.
        change (Z.to_nat maxBackOffAttempts) with 8%nat. cbn [forLoop].
        change (0 <? maxBackOffAttempts) with true. cbn iota.
        rewrite (current_turn_bad_request URL "GET" headers None _ _ e Hnew).
        now intros [= _ <- _] [].
    + exfalso. apply in_map_iff in Hin as (x & Hx & _). discriminate.
  - intros entries req0 key Hperm. exists (valuesFor key entries).
    split; [now apply valuesFor_Permutation | apply fold_Header_Add_values].
Qed.

Lemma GetURL_requests_carry_caller_headers_witness :
  let headers : gmap string string := {["Accept" := "application/json"]} in
  exists res evs t',
    @Current.GetURL Sample.env Inputs.URL headers
        ([inl (Sample.response 429 "429 Too Many Requests")],
         inl (Sample.response 200 "200 OK")) = Some (res, evs, t') /\
    sends evs = 2%nat /\
    forall req out, In (EvDo req out) evs ->
      http.req_Method req = "GET" /\ headerValues req "Accept" = ["application/json"].
Proof.
  intros headers.
  destruct (@Current.GetURL Sample.env Inputs.URL headers
        ([inl (Sample.response 429 "429 Too Many Requests")],
         inl (Sample.response 200 "200 OK"))) as [[[res evs] t']|] eqn:HG.
  - exists res, evs, t'. split; [reflexivity|]. split.
    + revert HG. vm_compute. now intros [= _ <- _].
    + intros req out Hin.
      destruct (proj1 (@GetURL_requests_carry_caller_headers Sample.env Inputs.URL headers)
                  _ _ _ _ _ _ HG Hin) as (req0 & Hnew & Hm & _ & _ & Hvals).
      destruct (Hvals "Accept") as (vals & Hperm & Hv).
      vm_compute in Hnew. injection Hnew as <-.
      split; [exact Hm|]. rewrite Hv.
      assert (Hone : @valuesFor Sample.env "Accept" (map_to_list headers)
                       = ["application/json"]).
      { subst headers. unfold valuesFor. rewrite map_to_list_singleton.
        cbn [List.filter fst]. rewrite bool_decide_eq_true_2 by reflexivity.
        reflexivity. }
      rewrite Hone in Hperm. apply Permutation_sym, Permutation_length_1_inv in Hperm.
      rewrite Hperm. vm_compute. reflexivity.
  - exfalso. revert HG. vm_compute. discriminate.
Defined.

(** X9.  The first request a call of [PostURL] sends is the request
    [http.NewRequest] builds for the method ["POST"], the URL and the body
    given, with the caller's headers added; the header loop leaves its body
    as [http.NewRequest] made it.  (A retry hands [http.NewRequest] the same
    reader again, by then read; the statement is about the first send.) *)
Theorem PostURL_first_request `{Env}
    (URL : string) (headers : gmap string string) (body : Reader) (t : Transport)
    res evs t' pre req out post :
  Current.PostURL URL headers body t = Some (res, evs, t') ->
  evs = pre ++ EvDo req out :: post ->
  sends pre = 0%nat ->
  exists req0, http_NewRequest "POST" URL body = inl req0 /\
               req = setHeaders headers req0 /\
               http.req_Body req = http.req_Body req0.
Proof.
  unfold Current.PostURL, Current.Request, Current.requestLoop.
  destruct (forLoop _ _ _ _ _) as [[[exit evs0] s0]|] eqn:Hloop; [|discriminate].
  intros [= _ <- _] Hevs _.
  assert (Hin : In (EvDo req out) evs0).
  { assert (Hall : In (EvDo req out) (evs0 ++ map EvClose (Current.deferred s0))).
    { rewrite Hevs. apply in_or_app. right. now left. }
    apply in_app_or in Hall as [Hin|Hin]; [exact Hin|].
    exfalso. apply in_map_iff in Hin as (x & Hx & _). discriminate. }
  destruct (http_NewRequest "POST" URL body) as [req0|e] eqn:Hnew.
  - exists req0. split; [reflexivity|].
    rewrite (current_loop_request URL "POST" headers body req0 Hnew _ _ _ _ _ _ _ _ _ Hloop Hin).
    split; [reflexivity|]. unfold setHeaders. apply fold_Header_Add_rest.
  - exfalso. revert Hloop Hin.
    change (Z.to_nat maxBackOffAttempts) with 8%nat. cbn [forLoop].
    change (0 <? maxBackOffAttempts) with true. cbn iota.
    rewrite (current_turn_bad_request URL "POST" headers body _ _ e Hnew).
    now intros [= _ <- _] [].
Qed.

Lemma PostURL_first_request_witness :
  let payload : Reader := Some [Byte.x7b; Byte.x7d] in
  exists res out post t',
    @Current.PostURL Sample.env Inputs.URL ∅ payload (Sample.always 201 "201 Created")
      = Some (res, [] ++ EvDo (http.mkRequest "POST" Inputs.URL ∅ payload) out :: post, t').
Proof.
  intros payload.
  destruct (@Current.PostURL Sample.env Inputs.URL ∅ payload
              (Sample.always 201 "201 Created")) as [[[res evs] t']|] eqn:HP.
  - assert (Hevs : exists req out post, evs = [] ++ EvDo req out :: post).
    { revert HP. vm_compute. intros [= _ <- _]. eexists _, _, _. reflexivity. }
    destruct Hevs as (req & out & post & Hevs).
    destruct (@PostURL_first_request Sample.env _ _ _ _ _ _ _ _ _ _ _ HP Hevs eq_refl)
      as (req0 & Hnew & -> & _).
    exists res, out, post, t'. rewrite Hevs.
    revert Hnew. vm_compute. now intros [= <-].
  - exfalso. revert HP. vm_compute. discriminate.
Defined.

(** ** The legacy loop *)

Section LegacySends.
Context `{Env}.
Variables (URL verb : string) (headers : gmap string string) (body : Reader).

Lemma legacy_turn_failed_send a s step evs s' pre req e post :
  Legacy.iteration URL verb headers body a s = (step, evs, s') ->
  evs = pre ++ EvDo req (inr e) :: post ->
  step = Return (failure e URL) /\ post = [].
Proof.
  intros Hturn. turn_cases Hturn; intros Heq;
    repeat (destruct pre as [|? pre]; cbn in Heq; try discriminate);
    inversion Heq; subst; auto.
Qed.
End LegacySends.

(** X10.  The legacy [Request] does not return while the transport keeps
    answering with status codes its loop body does not name, which include
    every success other than 200 and 201: such a turn leaves the counter where
    it is, so no amount of turns ends the loop. *)
Theorem legacy_Request_never_returns_on_unnamed_status `{Env}
    (URL verb : string) (headers : gmap string string) (body : Reader)
    (req0 : http.Request) (alive : Transport -> Prop) :
  http_NewRequest verb URL body = inl req0 ->
  (forall t req, alive t ->
     exists resp t', client_Do t req = (inl resp, t') /\
                     legacyUnclassified (http.resp_StatusCode resp) /\ alive t') ->
  forall fuel s, alive (Legacy.transport s) ->
    Legacy.Request fuel URL verb headers body s = None.
Proof.
  intros Hnew Halive fuel s Hs. unfold Legacy.Request.
  rewrite (legacy_loop_diverges URL verb headers body alive (ex_intro _ req0 Hnew) Halive);
    [reflexivity | unfold maxBackOffAttempts; lia | exact Hs].
Qed.

Lemma legacy_Request_never_returns_on_unnamed_status_witness :
  (forall t req, Inputs.answering 204 "204 No Content" t ->
     exists resp t', @client_Do Sample.env t req = (inl resp, t') /\
                     legacyUnclassified (http.resp_StatusCode resp) /\
                     Inputs.answering 204 "204 No Content" t') /\
  forall fuel,
    @Legacy.Request Sample.env fuel Inputs.URL "GET" ∅ None
      (Inputs.fresh (Sample.always 204 "204 No Content")) = None.
Proof.
  assert (Halive : forall t req, Inputs.answering 204 "204 No Content" t ->
     exists resp t', @client_Do Sample.env t req = (inl resp, t') /\
                     legacyUnclassified (http.resp_StatusCode resp) /\
                     Inputs.answering 204 "204 No Content" t').
  { intros t req ->. eexists _, _. split; [reflexivity|]. split; [|reflexivity].
    unfold legacyUnclassified. cbn. lia. }
  split; [exact Halive|]. intros fuel.
  exact (@legacy_Request_never_returns_on_unnamed_status Sample.env Inputs.URL "GET" ∅ None
           _ _ eq_refl Halive fuel (Inputs.fresh (Sample.always 204 "204 No Content")) eq_refl).
Defined.

(** X11.  The legacy [Request] does not retry a failure either, and
    returns it.  A call that [http.NewRequest] refuses returns the [-1]
    envelope and the error, sends nothing and leaves the transport and
    [version] as they were.  A send that fails, at once or after fewer than
    eight retry-eligible answers, makes the call return the [-1] envelope for
    the error of the send, with no request after it.  And in every call that
    returns, a failed send is the last event and its error the result. *)
Theorem legacy_failures_not_retried `{Env}
    (URL verb : string) (headers : gmap string string) (body : Reader)
    (s : Legacy.State) :
  (forall fuel e, (1 <= fuel)%nat ->
     http_NewRequest verb URL body = inr e ->
     Legacy.Request fuel URL verb headers body s = Some (failure e URL, [], s)) /\
  (forall fuel req0 retries e,
     http_NewRequest verb URL body = inl req0 ->
     Forall retryEligible retries ->
     (length retries < 8)%nat -> (length retries < fuel)%nat ->
     answers (Legacy.transport s) (map inl retries ++ [inr e]) ->
     exists evs s',
       Legacy.Request fuel URL verb headers body s = Some (failure e URL, evs, s') /\
       received evs = retries /\ sends evs = Datatypes.S (length retries)) /\
  (forall fuel res evs s' pre req e post,
     Legacy.Request fuel URL verb headers body s = Some (res, evs, s') ->
     evs = pre ++ EvDo req (inr e) :: post ->
     res = failure e URL /\ post = []).
Proof.
  split; [|split].
  - intros fuel e Hfuel Hnew. unfold Legacy.Request.
    destruct fuel as [|fuel]; [lia|]. cbn [forLoop].
    change (0 <? maxBackOffAttempts) with true. cbn iota.
    now rewrite (legacy_turn_bad_request URL verb headers body _ _ e Hnew).
  - intros fuel req0 retries e Hnew Helig Hlen Hfuel Hans.
    destruct (legacy_loop_retries_then_failure URL verb headers body req0 Hnew e
                retries fuel 0 s Helig Hans) as (evs & s' & Hloop & Hrec & Hsends & _).
    { unfold maxBackOffAttempts. lia. }
    { exact Hfuel. }
    unfold Legacy.Request. rewrite Hloop. exists evs, s'. auto.
  - intros fuel res evs s' pre req e post. unfold Legacy.Request.
    destruct (forLoop _ fuel 0 None s) as [[[exit evs0] s0]|] eqn:Hloop; [|discriminate].
    intros [= <- <- <-] Hevs.
    destruct (forLoop_failed_send (Legacy.iteration URL verb headers body) URL
                (legacy_turn_failed_send URL verb headers body)
                _ _ _ _ _ _ _ _ _ _ _ Hloop Hevs) as [-> ->].
    split; reflexivity.
Qed.

Lemma legacy_failures_not_retried_witness :
  @http_NewRequest Sample.env "BAD VERB" Inputs.URL None = inr "net/http: invalid method " /\
  @Legacy.Request Sample.env 1 Inputs.URL "BAD VERB" (Inputs.withVersion "2") None
      (Inputs.fresh (Sample.always 200 "200 OK"))
    = Some (failure "net/http: invalid method " Inputs.URL, [],
            Inputs.fresh (Sample.always 200 "200 OK")) /\
  exists evs s',
    @Legacy.Request Sample.env 8 Inputs.URL "GET" ∅ None
        (Inputs.fresh
           ([inl (Sample.response 429 "429 Too Many Requests")], inr "connection refused"))
      = Some (failure "connection refused" Inputs.URL, evs, s') /\
    sends evs = 2%nat.
Proof.
  split; [reflexivity|]. split.
  - exact (proj1 (@legacy_failures_not_retried Sample.env Inputs.URL "BAD VERB"
                    (Inputs.withVersion "2") None
                    (Inputs.fresh (Sample.always 200 "200 OK")))
             1%nat _ ltac:(lia) eq_refl).
  - destruct (proj1 (proj2 (@legacy_failures_not_retried Sample.env Inputs.URL "GET" ∅ None
                (Inputs.fresh
                   ([inl (Sample.response 429 "429 Too Many Requests")],
                    inr "connection refused"))))
              8%nat (http.mkRequest "GET" Inputs.URL ∅ None)
              [Sample.response 429 "429 Too Many Requests"] "connection refused"
              eq_refl
              ltac:(apply List.Forall_cons; [left; split; [reflexivity | exact I]
                                            | apply List.Forall_nil])
              ltac:(cbn; lia) ltac:(cbn; lia)
              ltac:(cbn [map app]; script_answers))
      as (evs & s' & HR & _ & Hs).
    exists evs, s'. split; [exact HR | exact Hs].
Defined.

(** ** The results of a call *)

Section Results.
Context `{Env}.
Variables (URL verb : string) (headers : gmap string string) (body : Reader).

Lemma current_turn_result a s r evs s' :
  Current.iteration URL verb headers body a s = (Return r, evs, s') ->
  (exists msg, r = failure msg URL) \/
  exists resp, received evs = [resp] /\
    ((200 <= http.resp_StatusCode resp <= 299 /\ r = statusOK resp) \/
     (http.resp_StatusCode resp = 404 /\ r = statusNotFound resp)).
Proof.
  intros Hturn. turn_cases Hturn; Zbool; unfold http.StatusNotFound in *; cbn;
    try (left; eexists; reflexivity);
    right; eexists; (split; [reflexivity|]);
    first [left; split; [lia | reflexivity] | right; split; [lia | reflexivity]].
Qed.

Lemma legacy_turn_result a s r evs s' :
  Legacy.iteration URL verb headers body a s = (Return r, evs, s') ->
  (exists msg, r = failure msg URL) \/
  exists resp, received evs = [resp] /\
    (((http.resp_StatusCode resp = 200 \/ http.resp_StatusCode resp = 201)
      /\ r = statusOK resp) \/
     (http.resp_StatusCode resp = 404 /\ r = statusNotFound resp)).
Proof.
  intros Hturn. turn_cases Hturn; Zbool;
    unfold http.StatusNotFound, http.StatusOK, http.StatusCreated in *; cbn;
    try (left; eexists; reflexivity);
    right; eexists; (split; [reflexivity|]);
    first [left; split; [auto | reflexivity] | right; split; [auto | reflexivity]].
Qed.
End Results.

(** X12.  A call of [Request] has one of four results and no other: the
    envelope returned after the loop, with a nil error; a [-1] envelope whose
    text is an error message followed by the URL, with that error; what
    [statusOK] makes of the last response received, which then has a code in
    200-299; or what [statusNotFound] makes of it, which then has code 404. *)
Theorem Request_results `{Env}
    (URL verb : string) (headers : gmap string string) (body : Reader)
    (t : Transport) res evs t' :
  Current.Request URL verb headers body t = Some (res, evs, t') ->
  res = (invalidStatus URL, None) \/
  (exists msg, res = failure msg URL) \/
  exists pre resp, received evs = pre ++ [resp] /\
    ((200 <= http.resp_StatusCode resp <= 299 /\ res = statusOK resp) \/
     (http.resp_StatusCode resp = 404 /\ res = statusNotFound resp)).
Proof.
  unfold Current.Request, Current.requestLoop.
  destruct (forLoop _ _ _ _ _) as [[[exit evs0] s0]|] eqn:Hloop; [|discriminate].
  destruct exit as [r|a err]; intros [= <- <- _]; [|now left].
  right.
  apply forLoop_returned in Hloop as (a0 & s1 & pre & last & Hturn & ->).
  apply current_turn_result in Hturn as [Hfail|(resp & Hrec & Hshape)]; [now left|].
  right. exists (received pre), resp. split; [|exact Hshape].
  assert (Hnil : forall l, received (map EvClose l) = []) by (induction l; auto).
  now rewrite !received_app, Hrec, Hnil, app_nil_r.
Qed.

Lemma Request_results_witness :
  exists evs t',
    @Current.Request Sample.env Inputs.URL "GET" ∅ None
        ([inl (Sample.response 403 "403 Forbidden")],
         inl (Sample.response 404 "404 Not Found"))
      = Some (statusNotFound (Sample.response 404 "404 Not Found"), evs, t') /\
    received evs = [Sample.response 403 "403 Forbidden"; Sample.response 404 "404 Not Found"].
Proof.
  destruct (@Current.Request Sample.env Inputs.URL "GET" ∅ None
        ([inl (Sample.response 403 "403 Forbidden")],
         inl (Sample.response 404 "404 Not Found"))) as [[[res evs] t']|] eqn:HR.
  - pose proof (@Request_results Sample.env _ _ _ _ _ _ _ _ HR) as Hshape.
    revert HR Hshape. vm_compute. intros [= <- <- <-] _.
    eexists _, _. split; reflexivity.
  - exfalso. revert HR. vm_compute. discriminate.
Defined.

(** X13.  The legacy [Request], when it returns, has one of the same four
    results, except that [statusOK] is only ever applied to a response with
    code 200 or 201: no other success is returned as one. *)
Theorem legacy_Request_results `{Env}
    (fuel : nat) (URL verb : string) (headers : gmap string string) (body : Reader)
    (s : Legacy.State) res evs s' :
  Legacy.Request fuel URL verb headers body s = Some (res, evs, s') ->
  res = (invalidStatus URL, None) \/
  (exists msg, res = failure msg URL) \/
  exists pre resp, received evs = pre ++ [resp] /\
    (((http.resp_StatusCode resp = 200 \/ http.resp_StatusCode resp = 201)
      /\ res = statusOK resp) \/
     (http.resp_StatusCode resp = 404 /\ res = statusNotFound resp)).
Proof.
  unfold Legacy.Request.
  destruct (forLoop _ fuel 0 None s) as [[[exit evs0] s0]|] eqn:Hloop; [|discriminate].
  destruct exit as [r|a err]; intros [= <- <- <-]; [|now left].
  right.
  apply forLoop_returned in Hloop as (a0 & s1 & pre & last & Hturn & ->).
  apply legacy_turn_result in Hturn as [Hfail|(resp & Hrec & Hshape)]; [now left|].
  right. exists (received pre), resp. split; [|exact Hshape].
  now rewrite received_app, Hrec.
Qed.

Lemma legacy_Request_results_witness :
  exists evs s',
    @Legacy.Request Sample.env 8 Inputs.URL "POST" ∅ None
        (Inputs.fresh (Sample.always 201 "201 Created"))
      = Some (statusOK (Sample.response 201 "201 Created"), evs, s') /\
    received evs = [Sample.response 201 "201 Created"].
Proof.
  destruct (@Legacy.Request Sample.env 8 Inputs.URL "POST" ∅ None
        (Inputs.fresh (Sample.always 201 "201 Created"))) as [[[res evs] s']|] eqn:HR.
  - pose proof (@legacy_Request_results Sample.env _ _ _ _ _ _ _ _ _ HR) as Hshape.
    revert HR Hshape. vm_compute. intros [= <- <- <-] _.
    eexists _, _. split; reflexivity.
  - exfalso. revert HR. vm_compute. discriminate.
Defined.

Section LegacyNamed.
Context `{Env}.
Variables (URL verb : string) (headers : gmap string string) (body : Reader).
Variable alive : Transport -> Prop.
Hypothesis Halive : forall t req out t',
  alive t -> client_Do t req = (out, t') ->
  alive t' /\ forall resp, out = inl resp -> ~ legacyUnclassified (http.resp_StatusCode resp).

Lemma legacy_turn_progress a s step evs s' :
  alive (Legacy.transport s) ->
  Legacy.iteration URL verb headers body a s = (step, evs, s') ->
  (sends evs <= 1)%nat /\ alive (Legacy.transport s') /\
  forall a' err', step = Next a' err' -> a' = a + 1.
Proof.
  intros Hs Hturn. turn_cases Hturn; cbn [Legacy.transport Legacy.version] in *;
    match goal with
    | Hdo : client_Do _ _ = _ |- _ =>
        destruct (Halive _ _ _ _ Hs Hdo) as [Ht' Hnamed]
    | _ => idtac
    end; Zbool;
    unfold http.StatusOK, http.StatusCreated, http.StatusNotFound,
      http.StatusTooManyRequests, http.StatusForbidden in *;
    cbn; (split; [lia|]); (split; [assumption|]);
    intros a' err' Hstep; try discriminate; injection Hstep as <- _; try reflexivity;
    exfalso; apply (Hnamed _ eq_refl); unfold legacyUnclassified; lia.
Qed.

Lemma legacy_loop_progress fuel : forall a err s,
  alive (Legacy.transport s) -> maxBackOffAttempts - a <= Z.of_nat fuel ->
  exists exit evs s',
    forLoop (Legacy.iteration URL verb headers body) fuel a err s = Some (exit, evs, s') /\
    Z.of_nat (sends evs) <= Z.max 0 (maxBackOffAttempts - a).
Proof.
  induction fuel as [|fuel IH]; intros a err s Hs Hfuel; simpl.
  - destruct (Z.ltb_spec a maxBackOffAttempts); [lia|].
    eexists _, [], _. split; [reflexivity | cbn; lia].
  - destruct (Z.ltb_spec a maxBackOffAttempts);
      [| eexists _, [], _; split; [reflexivity | cbn; lia]].
    destruct (Legacy.iteration URL verb headers body a s) as [[step evs1] s1] eqn:Hturn.
    destruct (legacy_turn_progress _ _ _ _ _ Hs Hturn) as (Hs1 & Halive1 & Hnext).
    destruct step as [r|a1 err1].
    + eexists _, _, _. split; [reflexivity | lia].
    + rewrite (Hnext _ _ eq_refl).
      destruct (IH (a + 1) err1 s1 Halive1) as (exit & evs2 & s2 & -> & Hs2); [lia|].
      eexists _, _, _. split; [reflexivity|]. rewrite sends_app. lia.
Qed.
End LegacyNamed.

(** X14.  The legacy [Request] does return, within eight turns and eight
    sends, when the transport never answers with a status code the loop body
    does not name: then every turn either returns or adds one to the
    counter. *)
Theorem legacy_Request_returns_when_statuses_named `{Env}
    (URL verb : string) (headers : gmap string string) (body : Reader)
    (alive : Transport -> Prop) (fuel : nat) (s : Legacy.State) :
  (forall t req out t',
     alive t -> client_Do t req = (out, t') ->
     alive t' /\
     forall resp, out = inl resp -> ~ legacyUnclassified (http.resp_StatusCode resp)) ->
  alive (Legacy.transport s) ->
  (8 <= fuel)%nat ->
  exists res evs s',
    Legacy.Request fuel URL verb headers body s = Some (res, evs, s') /\
    (sends evs <= 8)%nat.
Proof.
  intros Halive Hs Hfuel.
  destruct (legacy_loop_progress URL verb headers body alive Halive fuel 0 None s Hs)
    as (exit & evs & s' & Hloop & Hsends).
  { unfold maxBackOffAttempts. lia. }
  unfold Legacy.Request. rewrite Hloop.
  eexists _, evs, s'. split; [reflexivity|].
  unfold maxBackOffAttempts in Hsends. lia.
Qed.

Lemma legacy_Request_returns_when_statuses_named_witness :
  (forall t req out t',
     Inputs.answering 429 "429 Too Many Requests" t ->
     @client_Do Sample.env t req = (out, t') ->
     Inputs.answering 429 "429 Too Many Requests" t' /\
     forall resp, out = inl resp -> ~ legacyUnclassified (http.resp_StatusCode resp)) /\
  exists res evs s',
    @Legacy.Request Sample.env 8 Inputs.URL "GET" ∅ None
        (Inputs.fresh (Sample.always 429 "429 Too Many Requests")) = Some (res, evs, s') /\
    (sends evs <= 8)%nat.
Proof.
  assert (Halive : forall t req out t',
     Inputs.answering 429 "429 Too Many Requests" t ->
     @client_Do Sample.env t req = (out, t') ->
     Inputs.answering 429 "429 Too Many Requests" t' /\
     forall resp, out = inl resp -> ~ legacyUnclassified (http.resp_StatusCode resp)).
  { intros t req out t' -> [= <- <-]. split; [reflexivity|].
    intros resp [= <-] (_ & _ & _ & H429 & _). now apply H429. }
  split; [exact Halive|].
  exact (@legacy_Request_returns_when_statuses_named Sample.env Inputs.URL "GET" ∅ None
           (Inputs.answering 429 "429 Too Many Requests") 8
           (Inputs.fresh (Sample.always 429 "429 Too Many Requests"))
           Halive eq_refl ltac:(lia)).
Defined.

Section LegacyUnnamed.
Context `{Env}.
Variables (URL verb : string) (headers : gmap string string) (body : Reader).
Variable req0 : http.Request.
Hypothesis Hnew : http_NewRequest verb URL body = inl req0.

Lemma legacy_turn_answer a s resp (P : Transport -> Prop) :
  (forall req, exists t', client_Do (Legacy.transport s) req = (inl resp, t') /\ P t') ->
  exists evs s',
    received evs = [resp] /\ sends evs = 1%nat /\ P (Legacy.transport s') /\
    ((http.resp_StatusCode resp = 200 \/ http.resp_StatusCode resp = 201 ->
        Legacy.iteration URL verb headers body a s = (Return (statusOK resp), evs, s') /\
        sleeps evs = 0%nat) /\
     (legacyUnclassified (http.resp_StatusCode resp) ->
        Legacy.iteration URL verb headers body a s = (Next a None, evs, s') /\
        sleeps evs = 0%nat)).
Proof.
  intros Hdo.
  unfold Legacy.iteration, Legacy.updateVersion, Legacy.getVersion, Legacy.Do, bind, ret.
  rewrite Hnew.
  destruct (String.eqb _ _); cbn [Legacy.transport Legacy.version];
    match goal with |- context [client_Do ?t ?r] =>
      destruct (Hdo r) as (t' & -> & Ht') end;
    eexists [EvDo _ (inl resp)], (Legacy.mkState t' _);
    (split; [reflexivity|]); (split; [reflexivity|]); (split; [exact Ht'|]);
    unfold retryBranch, legacyUnclassified, http.StatusOK, http.StatusCreated,
      http.StatusNotFound, http.StatusTooManyRequests, http.StatusForbidden;
    (split; [intros [Hc|Hc]; rewrite Hc; cbn; split; reflexivity |]);
    intros (H200 & H201 & H404 & H429 & H403);
    destruct (Z.eqb_spec (http.resp_StatusCode resp) 200); try lia;
    destruct (Z.eqb_spec (http.resp_StatusCode resp) 201); try lia;
    destruct (Z.eqb_spec (http.resp_StatusCode resp) 404); try lia;
    destruct (Z.eqb_spec (http.resp_StatusCode resp) 429); try lia;
    destruct (Z.eqb_spec (http.resp_StatusCode resp) 403); try lia;
    split; reflexivity.
Qed.

Lemma legacy_loop_unnamed_then_ok ok :
  http.resp_StatusCode ok = 200 \/ http.resp_StatusCode ok = 201 ->
  forall others fuel a s,
    Forall (fun resp => legacyUnclassified (http.resp_StatusCode resp)) others ->
    answers (Legacy.transport s) (map inl others ++ [inl ok]) ->
    a < maxBackOffAttempts ->
    (length others < fuel)%nat ->
    exists evs s',
      forLoop (Legacy.iteration URL verb headers body) fuel a None s
        = Some (Returned (statusOK ok), evs, s') /\
      received evs = others ++ [ok] /\
      sends evs = Datatypes.S (length others) /\ sleeps evs = 0%nat.
Proof.
  intros Hok others. induction others as [|resp others IH];
    intros fuel a s Hothers Hans Ha Hfuel;
    (destruct fuel as [|fuel]; [cbn in Hfuel; lia|]); cbn [forLoop];
    (destruct (Z.ltb_spec a maxBackOffAttempts); [|lia]).
  - destruct (legacy_turn_answer a s ok (fun _ => True)) as (evs & s' & Hrec & Hs & _ & Hturn & _).
    { intros req. destruct (Hans req) as (t' & Hdo & _). eauto. }
    destruct (Hturn Hok) as [-> Hz].
    exists evs, s'. auto.
  - apply Forall_cons in Hothers as [Hresp Hothers].
    destruct (legacy_turn_answer a s resp
                (fun t' => answers t' (map inl others ++ [inl ok])))
      as (evs & s1 & Hrec & Hs & Hrest & _ & Hturn).
    { exact Hans. }
    destruct (Hturn Hresp) as [-> Hz].
    destruct (IH fuel a s1 Hothers Hrest Ha) as (evs2 & s' & Hloop & Hrec2 & Hs2 & Hz2).
    { cbn [length] in Hfuel. lia. }
    rewrite Hloop. eexists _, _. split; [reflexivity|].
    rewrite received_app, sends_app, sleeps_app, Hrec, Hrec2, Hs, Hs2, Hz, Hz2.
    repeat split; reflexivity.
Qed.
End LegacyUnnamed.

(** X15.  The legacy [Request] sets no bound on the requests of a call.
    However many answers with status codes its loop body does not name come
    first, it asks again at once, without sleeping and without counting, and
    when a 200 or a 201 follows it returns that success: the call has sent
    one request per answer. *)
Theorem legacy_retries_unnamed_status_without_limit `{Env}
    (URL verb : string) (headers : gmap string string) (body : Reader)
    (req0 : http.Request) (others : list http.Response) (ok : http.Response)
    (fuel : nat) (s : Legacy.State) :
  http_NewRequest verb URL body = inl req0 ->
  Forall (fun resp => legacyUnclassified (http.resp_StatusCode resp)) others ->
  http.resp_StatusCode ok = 200 \/ http.resp_StatusCode ok = 201 ->
  answers (Legacy.transport s) (map inl others ++ [inl ok]) ->
  (length others < fuel)%nat ->
  exists evs s',
    Legacy.Request fuel URL verb headers body s = Some (statusOK ok, evs, s') /\
    received evs = others ++ [ok] /\
    sends evs = Datatypes.S (length others) /\ sleeps evs = 0%nat.
Proof.
  intros Hnew Hothers Hok Hans Hfuel.
  destruct (legacy_loop_unnamed_then_ok URL verb headers body req0 Hnew ok Hok
              others fuel 0 s Hothers Hans) as (evs & s' & Hloop & Hrest);
    [unfold maxBackOffAttempts; lia | exact Hfuel |].
  unfold Legacy.Request. rewrite Hloop. exists evs, s'. split; [reflexivity | exact Hrest].
Qed.

Lemma legacy_retries_unnamed_status_without_limit_witness :
  let busy := Sample.response 503 "503 Service Unavailable" in
  let ok := Sample.response 200 "200 OK" in
  Forall (fun resp => legacyUnclassified (http.resp_StatusCode resp)) (repeat busy 9) /\
  @answers Sample.env (repeat (inl busy) 9, inl ok) (map inl (repeat busy 9) ++ [inl ok]) /\
  exists evs s',
    @Legacy.Request Sample.env 10 Inputs.URL "GET" ∅ None
        (Inputs.fresh (repeat (inl busy) 9, inl ok)) = Some (statusOK ok, evs, s') /\
    sends evs = 10%nat.
Proof.
  intros busy ok.
  assert (Hothers : Forall (fun resp => legacyUnclassified (http.resp_StatusCode resp))
                      (repeat busy 9)).
  { repeat constructor; cbn; lia. }
  assert (Hans : @answers Sample.env (repeat (inl busy) 9, inl ok)
                   (map inl (repeat busy 9) ++ [inl ok])).
  { cbn [repeat]. script_answers. }
  split; [exact Hothers|]. split; [exact Hans|].
  destruct (@legacy_retries_unnamed_status_without_limit Sample.env Inputs.URL "GET" ∅ None
              _ (repeat busy 9) ok 10 (Inputs.fresh (repeat (inl busy) 9, inl ok))
              eq_refl Hothers (or_introl eq_refl) Hans ltac:(cbn; lia))
    as (evs & s' & HR & _ & Hs & _).
  exists evs, s'. split; [exact HR | exact Hs].
Defined.

(** ** [HeaderLink] and the backoff *)

Lemma rangeLinks_first pre link post command :
  linkheader.Rel link = command ->
  (forall l, In l pre -> linkheader.Rel l <> command) ->
  rangeLinks (pre ++ link :: post) command = linkheader.URL link.
Proof.
  intros Hrel. induction pre as [|l pre IH]; intros Hpre; cbn.
  - destruct (String.eqb_spec (linkheader.Rel link) command); [reflexivity | contradiction].
  - destruct (String.eqb_spec (linkheader.Rel l) command) as [Heq|_].
    + exfalso. eapply Hpre; [left; reflexivity | exact Heq].
    + apply IH. intros l' Hin. apply Hpre. now right.
Qed.

Lemma rangeLinks_sound links command :
  rangeLinks links command <> "" ->
  exists link, In link links /\ linkheader.Rel link = command /\
               linkheader.URL link = rangeLinks links command.
Proof.
  induction links as [|l links IH]; cbn; [congruence|].
  destruct (String.eqb_spec (linkheader.Rel l) command) as [Heq|_].
  - intros _. exists l. auto.
  - intros Hne. destruct (IH Hne) as (link & Hin & Hrel & Hurl). exists link. auto.
Qed.

(** X16.  Among several links with the requested relation [HeaderLink] takes
    the first in the order of the parser; and a result that is not empty is
    always the URL of a parsed link whose relation is the requested one,
    compared exactly, never that of another relation. *)
Theorem HeaderLink_first_and_only_matching `{linkheader.Parser}
    (linkHeader command : string) :
  (forall pre link post,
     linkheader.Parse linkHeader = pre ++ link :: post ->
     linkheader.Rel link = command ->
     (forall l, In l pre -> linkheader.Rel l <> command) ->
     HeaderLink linkHeader command = linkheader.URL link) /\
  (HeaderLink linkHeader command <> "" ->
     exists link, In link (linkheader.Parse linkHeader) /\
                  linkheader.Rel link = command /\
                  linkheader.URL link = HeaderLink linkHeader command).
Proof.
  unfold HeaderLink. split.
  - intros pre link post -> Hrel Hpre. now apply rangeLinks_first.
  - apply rangeLinks_sound.
Qed.

Lemma HeaderLink_first_and_only_matching_witness :
  let header := ("<https://x/9>; rel=last, <https://x/2>; rel=next, <https://x/3>; rel=next")%string in
  @linkheader.Parse Sample.parser header
    = [linkheader.mkLink "https://x/9" "last" ∅] ++
      linkheader.mkLink "https://x/2" "next" ∅ :: [linkheader.mkLink "https://x/3" "next" ∅] /\
  @HeaderLink Sample.parser header "next" = "https://x/2" /\
  @HeaderLink Sample.parser header "Next" = "".
Proof.
  intros header.
  assert (Hparse : @linkheader.Parse Sample.parser header
    = [linkheader.mkLink "https://x/9" "last" ∅] ++
      linkheader.mkLink "https://x/2" "next" ∅ :: [linkheader.mkLink "https://x/3" "next" ∅])
    by (vm_compute; reflexivity).
  split; [exact Hparse|]. split.
  - apply (proj1 (@HeaderLink_first_and_only_matching Sample.parser header "next")
             _ _ _ Hparse eq_refl).
    intros l [<-|[]]. discriminate.
  - destruct (string_dec (@HeaderLink Sample.parser header "Next") "") as [Hempty|Hne];
      [exact Hempty|].
    exfalso.
    destruct (proj2 (@HeaderLink_first_and_only_matching Sample.parser header "Next") Hne)
      as (link & Hin & Hrel & _).
    rewrite Hparse in Hin. cbn in Hin.
    destruct Hin as [<-|[<-|[<-|[]]]]; discriminate.
Defined.

(** X17.  From 54 attempts up to 1023 the subtraction of 1 is lost to
    rounding, and [expBackoffCalc] returns exactly [2^(attempts - 1)], a power
    of two. *)
Theorem expBackoffCalc_power_of_two_from_54 (attempts : Z) :
  54 <= attempts <= 1023 ->
  float64.represents (expBackoffCalc attempts) (inject_Z (2 ^ (attempts - 1))).
Proof.
  intros Hrange. apply representsb_sound.
  assert (Hcheck : (attempts <? 54) ||
            float64.representsb (expBackoffCalc attempts) (inject_Z (2 ^ (attempts - 1)))
            = true).
  { apply (forallb_upto
             (fun a => (a <? 54) ||
                       float64.representsb (expBackoffCalc a) (inject_Z (2 ^ (a - 1)))) 1024);
      [vm_compute; reflexivity | lia]. }
  destruct (Z.ltb_spec attempts 54); [lia | exact Hcheck].
Qed.

Lemma expBackoffCalc_power_of_two_from_54_witness :
  54 <= 64 <= 1023 /\
  float64.represents (expBackoffCalc 64) (inject_Z 9223372036854775808).
Proof.
  split; [lia|].
  exact (expBackoffCalc_power_of_two_from_54 64 ltac:(lia)).
Defined.

(** ** Status codes [httpclient.go] does not name *)

Section CurrentUnnamed.
Context `{Env}.
Variables (URL verb : string) (headers : gmap string string) (body : Reader).
Variable req0 : http.Request.
Hypothesis Hnew : http_NewRequest verb URL body = inl req0.

Lemma current_loop_unnamed_exhaust : forall others fuel a s,
  Forall (fun resp => unclassified (http.resp_StatusCode resp)) others ->
  answers (Current.transport s) (map inl others) ->
  a = maxBackOffAttempts - Z.of_nat (length others) ->
  (length others <= fuel)%nat ->
  exists evs s',
    forLoop (Current.iteration URL verb headers body) fuel a None s
      = Some (ConditionFalse maxBackOffAttempts None, evs, s') /\
    received evs = others /\
    sends evs = length others /\ sleeps evs = 0%nat.
Proof.
  induction others as [|resp others IH]; intros fuel a s Hcodes Hans Ha Hfuel.
  - exists [], s. cbn in Ha. subst a. destruct fuel; cbn; auto.
  - destruct fuel as [|fuel]; [cbn in Hfuel; lia|]. cbn [forLoop].
    destruct (Z.ltb_spec a maxBackOffAttempts); [|cbn [length] in Ha; lia].
    destruct (Hans (setHeaders headers req0)) as (t' & Hdo & Hrest).
    apply Forall_cons in Hcodes as [Hresp Hothers].
    rewrite (current_turn_unclassified URL verb headers body a s req0 resp t' Hnew Hdo Hresp).
    destruct (IH fuel (a + 1)
                (Current.mkState t' (resp :: Current.deferred s)) Hothers Hrest)
      as (evs & s' & Hloop & Hrec & Hsends & Hsleeps).
    { cbn [length] in Ha. lia. }
    { cbn [length] in Hfuel. lia. }
    rewrite Hloop. eexists _, _. split; [reflexivity|].
    rewrite received_app, sends_app, sleeps_app, Hrec, Hsends, Hsleeps.
    repeat split; reflexivity.
Qed.
End CurrentUnnamed.

(** X18.  In [httpclient.go] a response whose status code no branch names
    (outside 200-299 and none of 404, 429, 403) makes the turn of the loop it
    arrives in add exactly one to the counter and go on; the turn sends the
    request and does nothing else, so it does not sleep.  Hence, when the
    next eight answers of the transport have such codes, and so when all its
    answers have, [Request] returns after eight sends, without a sleep, with
    the invalid-status envelope, code [-1]. *)
Theorem unclassified_status_costs_one_attempt `{Env}
    (URL verb : string) (headers : gmap string string) (body : Reader)
    (req0 : http.Request) :
  http_NewRequest verb URL body = inl req0 ->
  (forall a s resp t',
      client_Do (Current.transport s) (setHeaders headers req0) = (inl resp, t') ->
      unclassified (http.resp_StatusCode resp) ->
      Current.iteration URL verb headers body a s =
        (Next (a + 1) None, [EvDo (setHeaders headers req0) (inl resp)],
         Current.mkState t' (resp :: Current.deferred s))) /\
  (forall t others,
      Forall (fun resp => unclassified (http.resp_StatusCode resp)) others ->
      length others = 8%nat ->
      answers t (map inl others) ->
      exists evs t',
        Current.Request URL verb headers body t
          = Some ((invalidStatus URL, None), evs, t') /\
        Code (Status (invalidStatus URL)) = -1 /\
        received evs = others /\
        sends evs = 8%nat /\ sleeps evs = 0%nat) /\
  (forall alive : Transport -> Prop,
      (forall t req, alive t ->
         exists resp t', client_Do t req = (inl resp, t') /\
                         unclassified (http.resp_StatusCode resp) /\ alive t') ->
      forall t, alive t ->
      exists evs t',
        Current.Request URL verb headers body t
          = Some ((invalidStatus URL, None), evs, t') /\
        Code (Status (invalidStatus URL)) = -1 /\
        sends evs = 8%nat /\ sleeps evs = 0%nat).
Proof.
  intros Hnew. split; [|split].
  - intros a s resp t' Hdo Hcode. now apply current_turn_unclassified.
  - intros t others Hcodes Hlen Hans.
    assert (Hnil : forall l, received (map EvClose l) = []) by (induction l; auto).
    destruct (current_loop_unnamed_exhaust URL verb headers body req0 Hnew
                others 8 0 (Current.mkState t []) Hcodes Hans)
      as (evs & s' & Hloop & Hrec & Hsends & Hsleeps).
    { rewrite Hlen. reflexivity. }
    { lia. }
    unfold Current.Request, Current.requestLoop.
    change (Z.to_nat maxBackOffAttempts) with 8%nat. rewrite Hloop.
    eexists _, _. split; [reflexivity|]. split; [reflexivity|].
    rewrite received_app, Hnil, app_nil_r, sends_app, sleeps_app, sends_closes,
      sleeps_closes, Hsends, Hsleeps, Hlen.
    split; [exact Hrec | split; reflexivity].
  - intros alive Halive t Ht.
    destruct (current_request_unclassified URL verb headers body alive
                (ex_intro _ req0 Hnew) Halive t Ht) as (evs & t' & HR & Hs & Hz).
    exists evs, t'. repeat split; assumption.
Qed.

Lemma unclassified_status_costs_one_attempt_witness :
  let busy := Sample.response 500 "500 Internal Server Error" in
  @http_NewRequest Sample.env "GET" Inputs.URL None
    = inl (http.mkRequest "GET" Inputs.URL ∅ None) /\
  Forall (fun resp => unclassified (http.resp_StatusCode resp)) (repeat busy 8) /\
  @answers Sample.env (Sample.always 500 "500 Internal Server Error")
    (map inl (repeat busy 8)) /\
  exists evs t',
    @Current.Request Sample.env Inputs.URL "GET" ∅ None
        (Sample.always 500 "500 Internal Server Error")
      = Some ((invalidStatus Inputs.URL, None), evs, t') /\
    received evs = repeat busy 8 /\ sends evs = 8%nat /\ sleeps evs = 0%nat.
Proof.
  intros busy.
  assert (Hcodes : Forall (fun resp => unclassified (http.resp_StatusCode resp))
                     (repeat busy 8)).
  { cbn [repeat]. repeat apply List.Forall_cons; try apply List.Forall_nil;
      unfold unclassified; cbn; lia. }
  assert (Hans : @answers Sample.env (Sample.always 500 "500 Internal Server Error")
                   (map inl (repeat busy 8))).
  { cbn [repeat]. script_answers. }
  split; [reflexivity|]. split; [exact Hcodes|]. split; [exact Hans|].
  destruct (@unclassified_status_costs_one_attempt Sample.env Inputs.URL "GET" ∅ None
              _ eq_refl) as (_ & Hcall & _).
  destruct (Hcall (Sample.always 500 "500 Internal Server Error") (repeat busy 8)
              Hcodes eq_refl Hans) as (evs & t' & HR & _ & Hrec & Hs & Hz).
  exists evs, t'. repeat split; assumption.
Defined.
